(** * A momentum rebalancing engine: ledger, rebalance, signals, schedule

    Shallow embedding of [trading_system.py] (classes [PortfolioManager]
    and [LiveStrategyEngine]) and the properties of its ledger.

    Modelling choices.
    - Amounts of money, prices and weights are exact rationals ([Qc], with
      Leibniz equality); share counts are integers ([Z]).  Rounding of
      binary floating point is not part of the model.
    - A Python [dict] keyed by ticker is a [gmap string _]; the Python [set]
      [all_tickers] is a [gset string], iterated in an order the language
      leaves open (parameter [set_iter] below).
    - The wall clock ([datetime.now(timezone.utc)]) is an explicit argument.
    - An instance of [PortfolioManager] is a record that is passed in and
      returned. *)

From Stdlib Require Import QArith Qcanon Qround SpecFloat.
From stdpp Require Import gmap strings list fin_maps pretty.

Local Open Scope Z_scope.

(** ** Numbers *)

(** An integer used where Python promotes it to a float. *)
Definition Z2Qc (n : Z) : Qc := Q2Qc (inject_Z n).

(** Python's [int(x)] on a float: the fractional part is dropped, i.e. the
    value is rounded toward zero. *)
Definition int (x : Qc) : Z := Z.quot (Qnum x) (Z.pos (Qden x)).

(** Mathematical floor and ceiling, for comparison with [int]. *)
Definition floor (x : Qc) : Z := Qfloor x.
Definition ceiling (x : Qc) : Z := Qceiling x.

(** ** Timestamps: [datetime.datetime], always in UTC here *)

Record datetime := mk_datetime {
  year : Z; month : Z; day : Z;
  hour : Z; minute : Z; second : Z; microsecond : Z
}.

(** [datetime._is_leap], [_days_before_year], [_days_before_month],
    [_ymd2ord] of the standard library, behind [datetime.toordinal]. *)
Definition is_leap (y : Z) : bool :=
  (y mod 4 =? 0) && (negb (y mod 100 =? 0) || (y mod 400 =? 0)).

Definition days_in_month (y m : Z) : Z :=
  if (m =? 2) && is_leap y then 29
  else nth (Z.to_nat m) [0; 31; 28; 31; 30; 31; 30; 31; 31; 30; 31; 30; 31] 0.

Definition days_before_year (y : Z) : Z :=
  let y' := y - 1 in y' * 365 + y' / 4 - y' / 100 + y' / 400.

Definition days_before_month (y m : Z) : Z :=
  nth (Z.to_nat m) [0; 0; 31; 59; 90; 120; 151; 181; 212; 243; 273; 304; 334] 0
  + (if (2 <? m) && is_leap y then 1 else 0).

Definition toordinal (d : datetime) : Z :=
  days_before_year (year d) + days_before_month (year d) (month d) + day d.

(** The field ranges the [datetime] constructor enforces. *)
Definition valid_datetime (d : datetime) : bool :=
  (1 <=? year d) && (year d <=? 9999) &&
  (1 <=? month d) && (month d <=? 12) &&
  (1 <=? day d) && (day d <=? days_in_month (year d) (month d)) &&
  (0 <=? hour d) && (hour d <? 24) &&
  (0 <=? minute d) && (minute d <? 60) &&
  (0 <=? second d) && (second d <? 60) &&
  (0 <=? microsecond d) && (microsecond d <? 1000000).

(** [a - b] on two datetimes with the same [tzinfo] is the [timedelta] built
    from the differences of ordinals, of seconds in the day and of
    microseconds; [timedelta] normalises so that seconds and microseconds
    are non-negative, which makes [.days] the floor of the elapsed time in
    whole days. *)
Definition seconds_in_day (d : datetime) : Z :=
  second d + minute d * 60 + hour d * 3600.

Definition elapsed_microseconds (a b : datetime) : Z :=
  ((toordinal a - toordinal b) * 86400 + (seconds_in_day a - seconds_in_day b))
  * 1000000 + (microsecond a - microsecond b).

Definition timedelta_days (a b : datetime) : Z :=
  elapsed_microseconds a b / 86400000000.

(** [str(timestamp)]: ISO format with a space separator; the fraction is
    printed only when the microsecond field is not zero. *)
Fixpoint zeros (n : nat) : string :=
  match n with O => "" | S n => "0" +:+ zeros n end.

Definition pad (width : nat) (n : Z) : string :=
  let s := pretty (Z.to_N n) in
  zeros (width - String.length s) +:+ s.

Definition str_datetime (d : datetime) : string :=
  pad 4 (year d) +:+ "-" +:+ pad 2 (month d) +:+ "-" +:+ pad 2 (day d) +:+ " "
  +:+ pad 2 (hour d) +:+ ":" +:+ pad 2 (minute d) +:+ ":" +:+ pad 2 (second d)
  +:+ (if microsecond d =? 0 then "" else "." +:+ pad 6 (microsecond d))
  +:+ "+00:00".

(** ** The ledger: [class PortfolioManager] *)

(** One entry of [trade_history] (a dict with these six keys). *)
Record Trade := mk_trade {
  tr_timestamp : string;
  tr_ticker : string;
  tr_shares : Z;
  tr_price : Qc;
  tr_cost : Qc;
  tr_cash_after : Qc
}.

(** One entry of [portfolio_value_history]. *)
Record Valuation := mk_valuation {
  vr_timestamp : string;
  vr_value : Qc;
  vr_return : Qc
}.

Record PortfolioManager := mk_portfolio {
  initial_capital : Qc;
  cash : Qc;
  positions : gmap string Z;
  trade_history : list Trade;
  portfolio_value_history : list Valuation
}.

(** [PortfolioManager.__init__] *)
Definition init_portfolio (capital : Qc) : PortfolioManager :=
  {| initial_capital := capital; cash := capital; positions := ∅;
     trade_history := []; portfolio_value_history := [] |}.

(** [positions.get(ticker, 0)] and [current_prices.get(ticker, 0)] *)
Definition get_shares (pos : gmap string Z) (ticker : string) : Z :=
  default 0 (pos !! ticker).

Definition get_price (prices : gmap string Qc) (ticker : string) : Qc :=
  default 0%Qc (prices !! ticker).

(** [get_portfolio_value]: cash plus the sum, over the held tickers, of
    shares times the quoted price (0 when there is no quote). *)
Definition position_value (prices : gmap string Qc) (pos : gmap string Z) : Qc :=
  map_fold (λ ticker shares acc, acc + Z2Qc shares * get_price prices ticker)%Qc
           0%Qc pos.

Definition get_portfolio_value (prices : gmap string Qc) (pm : PortfolioManager) : Qc :=
  (cash pm + position_value prices (positions pm))%Qc.

(** [execute_trade]: pay [shares * price], add the shares to the position
    (creating it when the ticker is not held), drop the key when the position
    is now zero, append the trade record. *)
Definition updated_positions (pos : gmap string Z) (ticker : string) (shares : Z)
  : gmap string Z :=
  let pos1 :=
    match pos !! ticker with
    | Some held => <[ticker := held + shares]> pos
    | None => <[ticker := shares]> pos
    end in
  if decide (get_shares pos1 ticker = 0) then delete ticker pos1 else pos1.

Definition execute_trade (ticker : string) (shares : Z) (price : Qc)
    (timestamp : datetime) (pm : PortfolioManager) : PortfolioManager :=
  let cost := (Z2Qc shares * price)%Qc in
  let cash' := (cash pm - cost)%Qc in
  let trade :=
    {| tr_timestamp := str_datetime timestamp; tr_ticker := ticker;
       tr_shares := shares; tr_price := price; tr_cost := cost;
       tr_cash_after := cash' |} in
  {| initial_capital := initial_capital pm;
     cash := cash';
     positions := updated_positions (positions pm) ticker shares;
     trade_history := trade_history pm ++ [trade];
     portfolio_value_history := portfolio_value_history pm |}.

(** ** Rebalancing: [PortfolioManager.rebalance_portfolio] *)

(** How a call ends: it returns, or a division by an [initial_capital] of
    zero raises (Python numbers; a numpy scalar in the numerator would give
    an infinity instead).  The trades made before the exception stay in the
    ledger. *)
Inductive completion := Returned | ZeroDivisionError.

(** First loop: the whole number of shares wanted for every target ticker
    that has a quote different from zero. *)
Definition target_shares_of (total_value : Qc) (target_positions : gmap string Qc)
    (current_prices : gmap string Qc) : gmap string Z :=
  map_imap (λ ticker weight,
    match current_prices !! ticker with
    | None => None
    | Some price =>
        if decide (price = 0%Qc) then None
        else let target_value := (total_value * weight)%Qc in
             Some (int (target_value / price))
    end) target_positions.

(** Body of the second loop for one ticker; the counter is
    [trades_executed]. *)
Definition reconcile_step (target_shares : gmap string Z)
    (current_prices : gmap string Qc) (timestamp : datetime)
    (st : PortfolioManager * nat) (ticker : string) : PortfolioManager * nat :=
  let current_shares := get_shares (positions st.1) ticker in
  let target_share := get_shares target_shares ticker in
  let shares_to_trade := target_share - current_shares in
  match current_prices !! ticker with
  | Some price =>
      if decide (shares_to_trade = 0) then st
      else (execute_trade ticker shares_to_trade price timestamp st.1, S st.2)
  | None => st
  end.

Definition reconcile (target_shares : gmap string Z)
    (current_prices : gmap string Qc) (timestamp : datetime)
    (order : list string) (st : PortfolioManager * nat) : PortfolioManager * nat :=
  foldl (reconcile_step target_shares current_prices timestamp) st order.

(** The record appended to [portfolio_value_history]. *)
Definition valuation_record (timestamp : datetime) (new_value capital : Qc) : Valuation :=
  {| vr_timestamp := str_datetime timestamp;
     vr_value := new_value;
     vr_return := ((new_value / capital - 1) * Z2Qc 100)%Qc |}.

Section Rebalance.

(** The order in which Python enumerates a set of strings. *)
Variable set_iter : gset string → list string.

(** The function up to its log line: value the portfolio, derive the
    targets, trade every ticker of [all_tickers] that needs it. *)
Definition rebalance_trades (target_positions current_prices : gmap string Qc)
    (timestamp : datetime) (pm : PortfolioManager) : PortfolioManager * nat :=
  let total_value := get_portfolio_value current_prices pm in
  let target_shares := target_shares_of total_value target_positions current_prices in
  let all_tickers := dom (positions pm) ∪ dom target_shares in
  reconcile target_shares current_prices timestamp (set_iter all_tickers) (pm, O).

(** The whole function; the second component is [trades_executed]. *)
Definition rebalance_portfolio (target_positions current_prices : gmap string Qc)
    (timestamp : datetime) (pm : PortfolioManager)
  : PortfolioManager * nat * completion :=
  let run := rebalance_trades target_positions current_prices timestamp pm in
  let new_value := get_portfolio_value current_prices run.1 in
  if decide (initial_capital run.1 = 0%Qc) then (run.1, run.2, ZeroDivisionError)
  else
    ({| initial_capital := initial_capital run.1;
        cash := cash run.1;
        positions := positions run.1;
        trade_history := trade_history run.1;
        portfolio_value_history :=
          portfolio_value_history run.1
          ++ [valuation_record timestamp new_value (initial_capital run.1)] |},
     run.2, Returned).

End Rebalance.

(** ** Signals: [LiveStrategyEngine.calculate_signals] *)

(** A cell of a pandas table of floats: missing (NaN), infinite (from a
    division by a price of zero), or a number.  Negative zero is not
    distinguished from zero. *)
Inductive float := NaN | Inf (negative : bool) | Fin (q : Qc).

Definition is_nan (x : float) : bool :=
  match x with NaN => true | _ => false end.

Definition notna (x : float) : bool := negb (is_nan x).

Definition Qc_negative (q : Qc) : bool := bool_decide (q < 0)%Qc.

(** [x / y] and [x - 1] on cells, as IEEE arithmetic has them. *)
Definition fdiv (x y : float) : float :=
  match x, y with
  | NaN, _ | _, NaN => NaN
  | Inf _, Inf _ => NaN
  | Inf s, Fin b => Inf (xorb s (Qc_negative b))
  | Fin _, Inf _ => Fin 0%Qc
  | Fin a, Fin b =>
      if decide (b = 0%Qc) then
        (if decide (a = 0%Qc) then NaN else Inf (Qc_negative a))
      else Fin (a / b)%Qc
  end.

Definition fsub1 (x : float) : float :=
  match x with Fin q => Fin (q - 1)%Qc | other => other end.

(** [x < y] and [x == y] on cells; both are false when a side is NaN. *)
Definition flt (x y : float) : bool :=
  match x, y with
  | NaN, _ | _, NaN => false
  | Inf s, Inf s' => s && negb s'
  | Inf s, Fin _ => s
  | Fin _, Inf s' => negb s'
  | Fin a, Fin b => bool_decide (a < b)%Qc
  end.

Definition feq (x y : float) : bool :=
  match x, y with
  | Inf s, Inf s' => bool_decide (s = s')
  | Fin a, Fin b => bool_decide (a = b)
  | _, _ => false
  end.

(** A table of closing prices: one column per ticker, all columns as long as
    the index. *)
Record DataFrame := mk_frame {
  index_len : nat;
  data : gmap string (list float)
}.

Definition wf_frame (df : DataFrame) : Prop :=
  map_Forall (λ _ col, length col = index_len df) (data df).

(** [DataFrame.empty]: no row or no column. *)
Definition frame_empty (df : DataFrame) : bool :=
  bool_decide (index_len df = O) || bool_decide (data df = ∅).

(** [shift(k)]: every value moves [k] rows down, the first [k] rows become
    NaN and the length is kept. *)
Definition shift (k : nat) (col : list float) : list float :=
  take (length col) (replicate k NaN ++ col).

(** [prices / prices.shift(63) - 1], one column of it. *)
Definition momentum_3m (col : list float) : list float :=
  fsub1 <$> zip_with fdiv col (shift 63 col).

(** [.iloc[-1]] of a column of a table that is not empty. *)
Definition iloc_last (col : list float) : float := default NaN (last col).

Definition momentum_score (df : DataFrame) : gmap string float :=
  (λ col, iloc_last (momentum_3m col)) <$> data df.

(** [Series.rank(pct=True)]: missing values keep NaN and are not counted;
    every other value gets the average of the 1-based positions its ties
    occupy in ascending order, divided by the number of values that are not
    missing. *)
Definition count_if (P : float → bool) (s : gmap string float) : nat :=
  size (filter (λ kv, Is_true (P kv.2)) s).

Definition Qc_of_nat (n : nat) : Qc := Z2Qc (Z.of_nat n).

Definition pct_rank_of (s : gmap string float) (v : float) : float :=
  if is_nan v then NaN
  else
    let less := count_if (λ u, flt u v) s in
    let equal := count_if (λ u, feq u v) s in
    let valid := count_if notna s in
    Fin (Qc_of_nat (2 * less + equal + 1) / Qc_of_nat (2 * valid))%Qc.

Definition rank_pct (s : gmap string float) : gmap string float :=
  pct_rank_of s <$> s.

(** [rank >= 0.8] and [rank <= 0.2]: false on NaN. *)
Definition fge (x : float) (c : Qc) : bool :=
  match x with
  | NaN => false
  | Inf s => negb s
  | Fin q => bool_decide (c ≤ q)%Qc
  end.

Definition fle (x : float) (c : Qc) : bool :=
  match x with
  | NaN => false
  | Inf s => s
  | Fin q => bool_decide (q ≤ c)%Qc
  end.

Definition top_threshold : Qc := Q2Qc (8 # 10).
Definition bottom_threshold : Qc := Q2Qc (2 # 10).
Definition long_weight : Qc := Q2Qc (5 # 100).
Definition short_weight : Qc := Q2Qc (-5 # 100).

(** The weight the loop body assigns for one rank. *)
Definition signal_of_rank (rank : float) : Qc :=
  if fge rank top_threshold then long_weight
  else if fle rank bottom_threshold then short_weight
  else 0%Qc.

(** One iteration of [for ticker in self.tickers]. *)
Definition signals_step (ranked : gmap string float)
    (signals : gmap string Qc) (ticker : string) : gmap string Qc :=
  match ranked !! ticker with
  | None => signals
  | Some rank => <[ticker := signal_of_rank rank]> signals
  end.

(** [prices] is the result of [get_historical_data]: [None] when the
    download failed. *)
Definition calculate_signals (tickers : list string) (prices : option DataFrame)
  : gmap string Qc :=
  match prices with
  | None => ∅
  | Some df =>
      if frame_empty df then ∅
      else
        let ranked := rank_pct (momentum_score df) in
        foldl (signals_step ranked) ∅ tickers
  end.

(** ** Timing: [LiveStrategyEngine.should_rebalance] *)

Definition should_rebalance (rebalance_frequency : string)
    (last_rebalance : option datetime) (now : datetime) : bool :=
  match last_rebalance with
  | None => true
  | Some last =>
      if decide (rebalance_frequency = "daily") then true
      else if decide (rebalance_frequency = "weekly") then
        let days_since := timedelta_days now last in
        bool_decide (7 ≤ days_since)
      else if decide (rebalance_frequency = "monthly") then
        negb (bool_decide (month now = month last))
      else false
  end.


(** ** One cycle: [LiveStrategyEngine.run_trading_cycle] *)

Record LiveStrategyEngine := mk_engine {
  tickers : list string;
  portfolio : PortfolioManager;
  rebalance_frequency : string;
  last_rebalance : option datetime
}.

(** What the collaborators answer during one cycle: the market clock, the
    live quotes, the price history, and the three readings of the wall
    clock (in [should_rebalance], in [rebalance_portfolio], and for
    [last_rebalance]). *)
Record cycle_inputs := mk_inputs {
  market_open : bool;
  live_prices : gmap string Qc;
  historical_data : option DataFrame;
  clock_check : datetime;
  clock_trade : datetime;
  clock_done : datetime
}.

Section Cycle.

Variable set_iter : gset string → list string.

(** Logging and [save_state] write to files and are left out.  The
    percentage logged before the decision divides by the initial capital. *)
Definition run_trading_cycle (io : cycle_inputs) (engine : LiveStrategyEngine)
  : LiveStrategyEngine * completion :=
  if negb (market_open io) then (engine, Returned)
  else
    let current_prices := live_prices io in
    if decide (current_prices = ∅) then (engine, Returned)
    else if decide (initial_capital (portfolio engine) = 0%Qc)
    then (engine, ZeroDivisionError)
    else if should_rebalance (rebalance_frequency engine) (last_rebalance engine)
              (clock_check io)
    then
      let signals := calculate_signals (tickers engine) (historical_data io) in
      if decide (signals = ∅) then (engine, Returned)
      else
        let result := rebalance_portfolio set_iter signals current_prices
                        (clock_trade io) (portfolio engine) in
        match result.2 with
        | Returned =>
            ({| tickers := tickers engine;
                portfolio := result.1.1;
                rebalance_frequency := rebalance_frequency engine;
                last_rebalance := Some (clock_done io) |}, Returned)
        | ZeroDivisionError =>
            ({| tickers := tickers engine;
                portfolio := result.1.1;
                rebalance_frequency := rebalance_frequency engine;
                last_rebalance := last_rebalance engine |}, ZeroDivisionError)
        end
    else (engine, Returned).

End Cycle.

(** ** Statements that are compared with the code below *)

(** "The target is the mathematical floor of the quotient", for one table of
    target weights and quotes. *)
Definition floor_rule (total_value : Qc) (target_positions current_prices : gmap string Qc)
  : Prop :=
  ∀ ticker weight price,
    target_positions !! ticker = Some weight →
    current_prices !! ticker = Some price →
    price ≠ 0%Qc →
    target_shares_of total_value target_positions current_prices !! ticker
    = Some (floor (total_value * weight / price)).

(** "Weekly is due exactly when the two calendar dates are at least seven
    days apart." *)
Definition calendar_day_difference (now last : datetime) : Z :=
  toordinal now - toordinal last.

Definition weekly_by_calendar_days (last now : datetime) : Prop :=
  should_rebalance "weekly" (Some last) now = true
  ↔ 7 ≤ calendar_day_difference now last.

(** A sequence of [execute_trade] calls, each with its four arguments. *)
Definition trade_call : Type := string * Z * Qc * datetime.

Definition apply_call (pm : PortfolioManager) (c : trade_call) : PortfolioManager :=
  execute_trade c.1.1.1 c.1.1.2 c.1.2 c.2 pm.

Definition execute_trades (calls : list trade_call) (pm : PortfolioManager)
  : PortfolioManager :=
  foldl apply_call pm calls.

(** What one visit of the second loop leaves in [positions] for a priced
    ticker that holds [held] and has the target [target]: nothing changes
    when the two agree, otherwise the target is stored, or the key dropped
    when the target is zero. *)
Definition settle (target : Z) (held : option Z) : option Z :=
  if decide (target = default 0 held) then held
  else if decide (target = 0) then None else Some target.

(** Python enumerates every element of a set once. *)
Definition enumerates (set_iter : gset string → list string) : Prop :=
  ∀ s, set_iter s ≡ₚ elements s.

(** No stored position is zero. *)
Definition pruned (pos : gmap string Z) : Prop :=
  map_Forall (λ _ shares, shares ≠ 0) pos.



(** ** Concrete ledgers and quotes *)

(** Scenario A, then B: 100000 of cash, X quoted at 100, target weight 1/2,
    then weight 0. *)
Definition t0 : datetime := mk_datetime 2024 1 15 15 0 0 0.
Definition ledger_A : PortfolioManager :=
  (rebalance_portfolio elements {["X" := Q2Qc (1 # 2)]} {["X" := Z2Qc 100]} t0
     (init_portfolio (Z2Qc 100000))).1.1.
Definition ledger_B : PortfolioManager :=
  (rebalance_portfolio elements {["X" := 0%Qc]} {["X" := Z2Qc 100]} t0 ledger_A).1.1.

(** A ledger that holds 10 shares of Y, a ticker the quotes below do not
    list, next to 1000 of cash. *)
Definition ledger_stale : PortfolioManager :=
  {| initial_capital := Z2Qc 1000; cash := Z2Qc 1000;
     positions := {["Y" := 10]};
     trade_history := []; portfolio_value_history := [] |}.

Definition quotes_X : gmap string Qc := {["X" := Z2Qc 100]}.
Definition half_in_X : gmap string Qc := {["X" := Q2Qc (1 # 2)]}.

(** ** Histories, for the properties of the signals *)

(** The cell of a column at a row, NaN outside the column. *)
Definition cell (col : list float) (i : nat) : float := default NaN (col !! i).

(** The last price over the price 63 rows earlier, minus one: what the last
    row of [momentum_3m] holds. *)
Definition momentum_at_end (col : list float) : float :=
  let n := length col in
  if (n <? 64)%nat then NaN
  else fsub1 (fdiv (cell col (n - 1)) (cell col (n - 64))).

(** The number of prices a column really has. *)
Definition observations (col : list float) : nat :=
  length (filter (λ x, Is_true (notna x)) col).

(** The columns that get a rank: those whose momentum is not missing. *)
Definition ranked_column (entry : string * list float) : Prop :=
  Is_true (notna (iloc_last (momentum_3m entry.2))).

Definition drop_unranked (df : DataFrame) : DataFrame :=
  {| index_len := index_len df; data := filter ranked_column (data df) |}.

(** "An instrument with fewer than 64 observations gets no entry." *)
Definition absent_without_history (tickers : list string) (df : DataFrame) : Prop :=
  ∀ ticker col,
    ticker ∈ tickers →
    data df !! ticker = Some col →
    (observations col < 64)%nat →
    calculate_signals tickers (Some df) !! ticker = None.

(** Scenario D: 64 rows; A to D start at 100 and end at 110, 120, 130 and
    140; E is listed one row later and has 63 prices. *)
Definition prices_ending (rows : nat) (last_price : Z) : list float :=
  replicate (rows - 1) (Fin (Z2Qc 100)) ++ [Fin (Z2Qc last_price)].

Definition frame_D : DataFrame :=
  {| index_len := 64;
     data := {[ "A" := prices_ending 64 110; "B" := prices_ending 64 120;
                "C" := prices_ending 64 130; "D" := prices_ending 64 140;
                "E" := NaN :: prices_ending 63 150 ]} |}.

Definition tickers_D : list string := ["A"; "B"; "C"; "D"; "E"]%string.

(** A column of 64 rows with a hole in the middle: 63 prices, and still a
    momentum. *)
Definition frame_gap : DataFrame :=
  {| index_len := 64;
     data := {[ "G" := Fin (Z2Qc 100) :: NaN :: prices_ending 62 110 ]} |}.

(** ** Market hours: [LiveDataManager.is_market_open] *)

(** [datetime.weekday()]: Monday is 0, Sunday is 6. *)
Definition weekday (d : datetime) : Z := (toordinal d + 6) mod 7.

(** [a <= b] on two datetimes of the same time zone compares the fields
    year, month, day, hour, minute, second, microsecond in this order. *)
Definition datetime_fields (d : datetime) : list Z :=
  [year d; month d; day d; hour d; minute d; second d; microsecond d].

Fixpoint lex_le (a b : list Z) : bool :=
  match a, b with
  | [], _ => true
  | _ :: _, [] => false
  | x :: a', y :: b' => (x <? y) || ((x =? y) && lex_le a' b')
  end.

Definition datetime_le (a b : datetime) : bool :=
  lex_le (datetime_fields a) (datetime_fields b).

(** [now.replace(hour=h, minute=m, second=0, microsecond=0)] *)
Definition replace_time (d : datetime) (h m : Z) : datetime :=
  {| year := year d; month := month d; day := day d;
     hour := h; minute := m; second := 0; microsecond := 0 |}.

(** The clock reading [datetime.now(timezone.utc)] is the argument. *)
Definition is_market_open (now : datetime) : bool :=
  if 5 <=? weekday now then false
  else
    let opening := replace_time now 14 30 in
    let closing := replace_time now 21 0 in
    datetime_le opening now && datetime_le now closing.

(** Microseconds since midnight. *)
Definition microsecond_of_day (d : datetime) : Z :=
  seconds_in_day d * 1000000 + microsecond d.

(** ** Live quotes: [LiveDataManager.get_live_prices] *)

Module LiveDataManager.

Record t := mk {
  tickers : list string;
  latest_prices : gmap string float
}.

(** [col.dropna().iloc[-1]]: the last cell that is not missing; there is
    none (the source raises and skips the ticker) when every cell is. *)
Definition last_valid (col : list float) : option float :=
  last (filter (λ x, Is_true (notna x)) col).

(** One iteration of [for ticker in self.tickers]; [closes] holds, for a
    ticker, the column [data["Close"]] gives for it (with a single ticker the
    table has that one column).  A missing column raises inside the inner
    [try] and the ticker is skipped. *)
Definition live_step (closes : gmap string (list float))
    (prices : gmap string float) (ticker : string) : gmap string float :=
  match closes !! ticker ≫= last_valid with
  | Some price => <[ticker := price]> prices
  | None => prices
  end.

(** [download] is what [yf.download] gives: [None] when it raises. *)
Definition get_live_prices (download : option (gmap string (list float)))
    (dm : t) : t * gmap string float :=
  match download with
  | Some closes =>
      let prices := foldl (live_step closes) ∅ (tickers dm) in
      ({| tickers := tickers dm; latest_prices := prices |}, prices)
  | None => (dm, latest_prices dm)
  end.

End LiveDataManager.

(** ** Snapshots: [PortfolioManager.save_state] and [load_state] *)




(** ** Vocabulary of the further properties *)


Definition net_shares (ticker : string) (calls : list trade_call) : Z :=
  foldr (λ c acc, (if decide (c.1.1.1 = ticker) then c.1.1.2 else 0) + acc) 0 calls.

(** The trade records a call appended. *)
Definition new_trades (before after : PortfolioManager) : list Trade :=
  drop (length (trade_history before)) (trade_history after).

(** A ticker the second loop of [rebalance_portfolio] trades: it has a quote
    and its holding differs from its target. *)
Definition needs_trade (target_shares : gmap string Z) (current_prices : gmap string Qc)
    (pos : gmap string Z) (ticker : string) : bool :=
  bool_decide (is_Some (current_prices !! ticker)
               ∧ get_shares target_shares ticker ≠ get_shares pos ticker).

(** The target the first loop gives a quoted ticker, zero when there is
    none (no weight, or a quote of zero). *)
Definition target_of (total_value : Qc) (target_positions current_prices : gmap string Qc)
    (ticker : string) : Z :=
  get_shares (target_shares_of total_value target_positions current_prices) ticker.

(** What a record appended by the second loop looks like, given the
    positions [pos] at the start of the call. *)
Definition trade_made_from (target_shares : gmap string Z)
    (current_prices : gmap string Qc) (timestamp : datetime)
    (pos : gmap string Z) (trade : Trade) : Prop :=
  tr_shares trade ≠ 0
  ∧ tr_shares trade
    = get_shares target_shares (tr_ticker trade) - get_shares pos (tr_ticker trade)
  ∧ current_prices !! tr_ticker trade = Some (tr_price trade)
  ∧ tr_cost trade = (Z2Qc (tr_shares trade) * tr_price trade)%Qc
  ∧ tr_timestamp trade = str_datetime timestamp.

(** ** More concrete inputs *)

(** Another enumeration of a set: the reverse of the first one. *)
Definition reversed_iter (s : gset string) : list string := reverse (elements s).

(** 3 shares of X and 4 of Y next to 1000 of cash; X at 100 and Y at 50. *)
Definition ledger_two : PortfolioManager :=
  {| initial_capital := Z2Qc 1500; cash := Z2Qc 1000;
     positions := {["X" := 3; "Y" := 4]};
     trade_history := []; portfolio_value_history := [] |}.

Definition quotes_XY : gmap string Qc := {["X" := Z2Qc 100; "Y" := Z2Qc 50]}.

(** An engine on the five tickers of Scenario D with 100000 of cash, and a
    cycle in which the market is open, every ticker is quoted at 100 and the
    history is the table of Scenario D. *)
Definition engine_D : LiveStrategyEngine :=
  {| tickers := tickers_D;
     portfolio := init_portfolio (Z2Qc 100000);
     rebalance_frequency := "daily";
     last_rebalance := None |}.

Definition quotes_D : gmap string Qc :=
  {[ "A" := Z2Qc 100; "B" := Z2Qc 100; "C" := Z2Qc 100; "D" := Z2Qc 100;
     "E" := Z2Qc 100 ]}.

Definition cycle_D : cycle_inputs :=
  {| market_open := true; live_prices := quotes_D;
     historical_data := Some frame_D;
     clock_check := t0; clock_trade := t0; clock_done := t0 |}.


(** A ledger with another initial capital and everything else the same:
    what loading a snapshot gives a manager created with that capital. *)
Definition with_capital (capital : Qc) (pm : PortfolioManager) : PortfolioManager :=
  {| initial_capital := capital; cash := cash pm; positions := positions pm;
     trade_history := trade_history pm;
     portfolio_value_history := portfolio_value_history pm |}.

(** Five full columns: every ticker has a momentum. *)
Definition frame_five : DataFrame :=
  {| index_len := 64;
     data := {[ "A" := prices_ending 64 110; "B" := prices_ending 64 120;
                "C" := prices_ending 64 130; "D" := prices_ending 64 140;
                "E" := prices_ending 64 150 ]} |}.

(** ** The ledger in double precision

    The definitions above read every amount as an exact rational.  The
    program computes with IEEE 754 doubles, and below the ledger and the
    rebalance are written out once more with the operations of binary64
    (round to nearest even, [SpecFloat]), for the properties in which
    rounding decides.

    - A number that is a Python [int] in the source where a float is used
      (the initial capital, the cash before the first trade, a share count
      in a product) stands for its float value.
    - [self.positions] is a dict in insertion order, because
      [get_portfolio_value] adds the terms in that order; the additions are
      plain double additions from left to right.
    - A division by zero raises, as for Python floats. *)

Module Binary64.

Definition double : Type := spec_float.

Definition prec : Z := 53.
Definition emax : Z := 1024.

Definition add (x y : double) : double := SFadd prec emax x y.
Definition sub (x y : double) : double := SFsub prec emax x y.
Definition mul (x y : double) : double := SFmul prec emax x y.
Definition div (x y : double) : double := SFdiv prec emax x y.

(** [float(n)] for an integer [n], and the double a decimal literal such as
    [203.43] denotes: the double nearest to 20343/100. *)
Definition of_int (n : Z) : double := binary_normalize prec emax n 0 false.
Definition decimal (n : Z) (d : positive) : double := div (of_int n) (of_int (Z.pos d)).

Definition zero : double := S754_zero false.

(** [x == 0] *)
Definition eq_zero (x : double) : bool := SFeqb x zero.

Inductive exn := ZeroDivisionError | OverflowError | ValueError.

(** [int(x)]: the fractional part is dropped; an infinity and a NaN
    raise. *)
Definition int (x : double) : exn + Z :=
  match x with
  | S754_zero _ => inr 0
  | S754_infinity _ => inl OverflowError
  | S754_nan => inl ValueError
  | S754_finite s m e =>
      let magnitude := Z.shiftl (Z.pos m) e in
      inr (if s then - magnitude else magnitude)
  end.

(** A dict from tickers to share counts, as the list of its items in
    insertion order. *)
Fixpoint dict_lookup (ticker : string) (d : list (string * Z)) : option Z :=
  match d with
  | [] => None
  | (k, v) :: d' => if decide (ticker = k) then Some v else dict_lookup ticker d'
  end.

(** [d[ticker] = v]: an existing key keeps its place, a new key goes to the
    end. *)
Fixpoint dict_set (ticker : string) (v : Z) (d : list (string * Z)) : list (string * Z) :=
  match d with
  | [] => [(ticker, v)]
  | (k, v') :: d' =>
      if decide (ticker = k) then (k, v) :: d' else (k, v') :: dict_set ticker v d'
  end.

(** [del d[ticker]] *)
Definition dict_del (ticker : string) (d : list (string * Z)) : list (string * Z) :=
  filter (λ kv, kv.1 ≠ ticker) d.

Definition dict_get (d : list (string * Z)) (ticker : string) : Z :=
  default 0 (dict_lookup ticker d).

Definition dict_keys (d : list (string * Z)) : gset string := list_to_set d.*1.

Record Trade := mk_trade {
  tr_timestamp : string;
  tr_ticker : string;
  tr_shares : Z;
  tr_price : double;
  tr_cost : double;
  tr_cash_after : double
}.

Record Valuation := mk_valuation {
  vr_timestamp : string;
  vr_value : double;
  vr_return : double
}.

Record PortfolioManager := mk_portfolio {
  initial_capital : double;
  cash : double;
  positions : list (string * Z);
  trade_history : list Trade;
  portfolio_value_history : list Valuation
}.

Definition init_portfolio (capital : Z) : PortfolioManager :=
  {| initial_capital := of_int capital; cash := of_int capital; positions := [];
     trade_history := []; portfolio_value_history := [] |}.

(** [get_portfolio_value]: the sum starts at 0 and takes the terms
    [shares * price] in the order of the dict; a ticker without a quote
    contributes [shares * 0], the integer zero. *)
Definition position_value (current_prices : gmap string double)
    (pos : list (string * Z)) : double :=
  foldl (λ acc kv,
           match current_prices !! kv.1 with
           | Some price => add acc (mul (of_int kv.2) price)
           | None => add acc zero
           end) zero pos.

Definition get_portfolio_value (current_prices : gmap string double)
    (pm : PortfolioManager) : double :=
  add (cash pm) (position_value current_prices (positions pm)).

Definition updated_positions (pos : list (string * Z)) (ticker : string) (shares : Z)
  : list (string * Z) :=
  let pos1 :=
    match dict_lookup ticker pos with
    | Some held => dict_set ticker (held + shares) pos
    | None => dict_set ticker shares pos
    end in
  if decide (dict_get pos1 ticker = 0) then dict_del ticker pos1 else pos1.

Definition execute_trade (ticker : string) (shares : Z) (price : double)
    (timestamp : datetime) (pm : PortfolioManager) : PortfolioManager :=
  let cost := mul (of_int shares) price in
  let cash' := sub (cash pm) cost in
  let trade :=
    {| tr_timestamp := str_datetime timestamp; tr_ticker := ticker;
       tr_shares := shares; tr_price := price; tr_cost := cost;
       tr_cash_after := cash' |} in
  {| initial_capital := initial_capital pm;
     cash := cash';
     positions := updated_positions (positions pm) ticker shares;
     trade_history := trade_history pm ++ [trade];
     portfolio_value_history := portfolio_value_history pm |}.

(** How a call ends. *)
Inductive completion := Returned | Raised (e : exn).

(** First loop of [rebalance_portfolio], over the items of
    [target_positions] in their order; the first [int] that raises ends the
    call. *)
Fixpoint target_shares_of (total_value : double)
    (target_positions : list (string * double))
    (current_prices : gmap string double) (target_shares : gmap string Z)
  : exn + gmap string Z :=
  match target_positions with
  | [] => inr target_shares
  | (ticker, weight) :: rest =>
      match current_prices !! ticker with
      | None => target_shares_of total_value rest current_prices target_shares
      | Some price =>
          if eq_zero price
          then target_shares_of total_value rest current_prices target_shares
          else
            let target_value := mul total_value weight in
            match int (div target_value price) with
            | inl e => inl e
            | inr shares =>
                target_shares_of total_value rest current_prices
                  (<[ticker := shares]> target_shares)
            end
      end
  end.

Definition reconcile_step (target_shares : gmap string Z)
    (current_prices : gmap string double) (timestamp : datetime)
    (st : PortfolioManager * nat) (ticker : string) : PortfolioManager * nat :=
  let current_shares := dict_get (positions st.1) ticker in
  let target_share := get_shares target_shares ticker in
  let shares_to_trade := target_share - current_shares in
  match current_prices !! ticker with
  | Some price =>
      if decide (shares_to_trade = 0) then st
      else (execute_trade ticker shares_to_trade price timestamp st.1, S st.2)
  | None => st
  end.

Definition reconcile (target_shares : gmap string Z)
    (current_prices : gmap string double) (timestamp : datetime)
    (order : list string) (st : PortfolioManager * nat) : PortfolioManager * nat :=
  foldl (reconcile_step target_shares current_prices timestamp) st order.

(** [(new_value / initial_capital - 1) * 100], behind the zero test that
    makes the division raise. *)
Definition valuation_record (timestamp : datetime) (new_value capital : double)
  : Valuation :=
  {| vr_timestamp := str_datetime timestamp;
     vr_value := new_value;
     vr_return := mul (sub (div new_value capital) (of_int 1)) (of_int 100) |}.

Section Rebalance.

(** The order in which Python enumerates a set of strings. *)
Variable set_iter : gset string → list string.

Definition rebalance_portfolio (target_positions : list (string * double))
    (current_prices : gmap string double) (timestamp : datetime)
    (pm : PortfolioManager) : PortfolioManager * nat * completion :=
  let total_value := get_portfolio_value current_prices pm in
  match target_shares_of total_value target_positions current_prices ∅ with
  | inl e => (pm, O, Raised e)
  | inr target_shares =>
      let all_tickers := dict_keys (positions pm) ∪ dom target_shares in
      let run := reconcile target_shares current_prices timestamp
                   (set_iter all_tickers) (pm, O) in
      let new_value := get_portfolio_value current_prices run.1 in
      if eq_zero (initial_capital run.1)
      then (run.1, run.2, Raised ZeroDivisionError)
      else
        ({| initial_capital := initial_capital run.1;
            cash := cash run.1;
            positions := positions run.1;
            trade_history := trade_history run.1;
            portfolio_value_history :=
              portfolio_value_history run.1
              ++ [valuation_record timestamp new_value (initial_capital run.1)] |},
         run.2, Returned)
  end.

End Rebalance.

(** "The second of two identical calls trades nothing." *)
Definition second_call_idle (set_iter : gset string → list string)
    (target_positions : list (string * double))
    (current_prices : gmap string double) (timestamp : datetime)
    (pm : PortfolioManager) : Prop :=
  let first := rebalance_portfolio set_iter target_positions current_prices
                 timestamp pm in
  let second := rebalance_portfolio set_iter target_positions current_prices
                  timestamp first.1.1 in
  second.1.2 = O.

(** Four tickers on a fresh ledger of 100000: A long, B and C short, H long
    and quoted at 125, so that 5 percent of 100000 is exactly 40 shares. *)
Definition weights_ABCH : list (string * double) :=
  [("A"%string, decimal 5 100); ("B"%string, decimal (-5) 100);
   ("C"%string, decimal (-5) 100); ("H"%string, decimal 5 100)].

Definition quotes_ABCH : gmap string double :=
  {[ "A" := decimal 20343 100; "B" := decimal 34012 100;
     "C" := decimal 15399 100; "H" := of_int 125 ]}.

(** Scenario A of the specification in doubles. *)
Definition weights_X : list (string * double) := [("X"%string, decimal 1 2)].
Definition quotes_X : gmap string double := {[ "X" := of_int 100 ]}.

End Binary64.

(** * Properties *)

(** ** The scenarios of the specification, by evaluation *)

Example str_datetime_ex :
  str_datetime (mk_datetime 2024 1 15 9 5 0 0) = "2024-01-15 09:05:00+00:00"%string.
Proof. vm_compute. reflexivity. Qed.

Example toordinal_ex : toordinal (mk_datetime 2024 3 1 0 0 0 0) = 738946.
Proof. reflexivity. Qed.

Example scenario_A :
  positions ledger_A = {["X" := 500]} ∧ cash ledger_A = Z2Qc 50000 ∧
  (vr_value <$> portfolio_value_history ledger_A) = [Z2Qc 100000] ∧
  (tr_shares <$> trade_history ledger_A) = [500].
Proof.
  repeat split; try (vm_compute; reflexivity); try (apply Qc_is_canon; vm_compute; reflexivity).
Qed.

Example scenario_B :
  positions ledger_B = ∅ ∧ cash ledger_B = Z2Qc 100000 ∧
  (tr_shares <$> trade_history ledger_B) = [500; -500].
Proof. repeat split; vm_compute; reflexivity. Qed.

(** Scenario C. *)
Example scenario_C :
  should_rebalance "monthly" (Some (mk_datetime 2024 1 15 0 0 0 0))
                   (mk_datetime 2024 2 1 0 0 0 0) = true ∧
  should_rebalance "monthly" (Some (mk_datetime 2024 2 1 0 0 0 0))
                   (mk_datetime 2024 2 20 0 0 0 0) = false.
Proof. split; reflexivity. Qed.

(** ** Rounding of share counts *)

Lemma int_nonneg_floor (x : Qc) : (0 ≤ x)%Qc → int x = floor x.
Proof.
  destruct x as [[n d] Hc]. unfold int, floor, Qcle, Qle. simpl.
  intros H. apply Z.quot_div_nonneg; lia.
Qed.

Lemma int_nonpos_ceiling (x : Qc) : (x ≤ 0)%Qc → int x = ceiling x.
Proof.
  destruct x as [[n d] Hc]. unfold int, ceiling, Qceiling, Qcle, Qle. simpl.
  intros H.
  rewrite <- (Z.opp_involutive n) at 1. rewrite Z.quot_opp_l by lia.
  f_equal. apply Z.quot_div_nonneg; lia.
Qed.

Lemma target_shares_of_lookup V (W P : gmap string Qc) ticker :
  target_shares_of V W P !! ticker =
  match W !! ticker, P !! ticker with
  | Some weight, Some price =>
      if decide (price = 0%Qc) then None else Some (int (V * weight / price))
  | _, _ => None
  end.
Proof.
  unfold target_shares_of. rewrite map_lookup_imap.
  destruct (W !! ticker) as [w|]; simpl; [|done].
  destruct (P !! ticker) as [p|]; [|done]. by destruct (decide (p = 0%Qc)).
Qed.

(** C5, as stated, fails: a short target of 5 percent of 100000 at a quote
    of 300 is -16 shares, while the floor of -50/3 is -17. *)
Lemma target_shares_floor_refuted :
  ¬ floor_rule (Z2Qc 100000) {["X" := Q2Qc (-5 # 100)]} {["X" := Z2Qc 300]}.
Proof.
  intros H.
  specialize (H "X"%string (Q2Qc (-5 # 100)) (Z2Qc 300)).
  assert (Hneq : Z2Qc 300 ≠ 0%Qc) by (intros E; discriminate E).
  specialize (H eq_refl eq_refl Hneq).
  vm_compute in H. discriminate H.
Qed.

(** C5, amended: for every target ticker with a quote different from zero
    the target is the quotient [total_value * weight / price] rounded toward
    zero ([int]); that is its floor when the quotient is not negative and
    its ceiling when it is not positive. *)
Theorem target_shares_truncate (current_prices target_positions : gmap string Qc)
    (pm : PortfolioManager) (ticker : string) (weight price : Qc) :
  target_positions !! ticker = Some weight →
  current_prices !! ticker = Some price →
  price ≠ 0%Qc →
  let total_value := get_portfolio_value current_prices pm in
  let quotient := (total_value * weight / price)%Qc in
  target_shares_of total_value target_positions current_prices !! ticker
    = Some (int quotient)
  ∧ ((0 ≤ quotient)%Qc → int quotient = floor quotient)
  ∧ ((quotient ≤ 0)%Qc → int quotient = ceiling quotient).
Proof.
  intros HW HP Hp V q. split; [|split].
  - rewrite target_shares_of_lookup, HW, HP. by destruct (decide (price = 0%Qc)).
  - apply int_nonneg_floor.
  - apply int_nonpos_ceiling.
Qed.

Lemma target_shares_truncate_witness :
  target_shares_of (get_portfolio_value {["X" := Z2Qc 300]} (init_portfolio (Z2Qc 100000)))
    {["X" := Q2Qc (-5 # 100)]} {["X" := Z2Qc 300]} !! "X" = Some (-16).
Proof.
  pose proof (target_shares_truncate {["X" := Z2Qc 300]} {["X" := Q2Qc (-5 # 100)]}
                (init_portfolio (Z2Qc 100000)) "X" (Q2Qc (-5 # 100)) (Z2Qc 300)
                eq_refl eq_refl) as H.
  assert (Hneq : Z2Qc 300 ≠ 0%Qc) by (intros E; discriminate E).
  destruct (H Hneq) as [H1 _]. rewrite H1. vm_compute. reflexivity.
Defined.

(** ** Timing *)

(** C6, as stated, fails: from 1 January 23:00 to 8 January 01:00 the dates
    are seven days apart, but only six days and two hours have elapsed and
    the weekly rule says no. *)
Lemma weekly_calendar_days_refuted :
  ¬ weekly_by_calendar_days (mk_datetime 2024 1 1 23 0 0 0)
                            (mk_datetime 2024 1 8 1 0 0 0).
Proof.
  unfold weekly_by_calendar_days. intros [_ H].
  assert (Hd : 7 ≤ calendar_day_difference (mk_datetime 2024 1 8 1 0 0 0)
                                           (mk_datetime 2024 1 1 23 0 0 0))
    by (vm_compute; discriminate).
  apply H in Hd. vm_compute in Hd. discriminate Hd.
Qed.

Lemma weekly_due_iff (last now : datetime) :
  should_rebalance "weekly" (Some last) now = true ↔ 7 ≤ timedelta_days now last.
Proof.
  unfold should_rebalance.
  destruct (decide ("weekly"%string = "daily"%string)) as [E|_]; [discriminate E|].
  destruct (decide ("weekly"%string = "weekly"%string)) as [_|N]; [|done].
  apply bool_decide_eq_true.
Qed.

Lemma timedelta_days_ge (a b : datetime) (n : Z) :
  n ≤ timedelta_days a b ↔ n * 86400000000 ≤ elapsed_microseconds a b.
Proof.
  unfold timedelta_days. split; intros H.
  - pose proof (Z.mul_div_le (elapsed_microseconds a b) 86400000000). lia.
  - apply Z.div_le_lower_bound; lia.
Qed.

(** C6, amended: with the weekly frequency and a previous rebalance, the
    answer is true if and only if the [days] field of [now - last], the
    floor of the elapsed time in days, is at least 7, that is, if and only
    if at least seven times 24 hours have elapsed. *)
Theorem should_rebalance_weekly (last now : datetime) :
  (should_rebalance "weekly" (Some last) now = true
     ↔ 7 ≤ timedelta_days now last)
  ∧ (should_rebalance "weekly" (Some last) now = true
     ↔ 7 * 86400000000 ≤ elapsed_microseconds now last).
Proof.
  split; [apply weekly_due_iff|].
  rewrite weekly_due_iff. apply timedelta_days_ge.
Qed.

(** X11: how the weekly rule relates to calendar dates: when it says yes the
    two dates are at least seven days apart, and when the dates are at least
    eight days apart it says yes; at exactly seven days apart the time of
    day decides. *)
Lemma weekly_versus_calendar (last now : datetime) :
  valid_datetime last = true → valid_datetime now = true →
  (should_rebalance "weekly" (Some last) now = true
     → 7 ≤ calendar_day_difference now last)
  ∧ (8 ≤ calendar_day_difference now last
     → should_rebalance "weekly" (Some last) now = true).
Proof.
  intros Hl Hn.
  unfold valid_datetime in Hl, Hn.
  repeat (apply andb_prop in Hl as [Hl ?]). repeat (apply andb_prop in Hn as [Hn ?]).
  rewrite weekly_due_iff, timedelta_days_ge.
  unfold elapsed_microseconds, calendar_day_difference, seconds_in_day.
  split; lia.
Qed.

(** C10: with the monthly frequency and a previous rebalance, equal month
    numbers give false, whatever the years are. *)
Theorem should_rebalance_monthly_same_month (last now : datetime) :
  month now = month last →
  should_rebalance "monthly" (Some last) now = false.
Proof.
  intros Hm. unfold should_rebalance.
  destruct (decide ("monthly"%string = "daily"%string)) as [E|_]; [discriminate E|].
  destruct (decide ("monthly"%string = "weekly"%string)) as [E|_]; [discriminate E|].
  destruct (decide ("monthly"%string = "monthly"%string)) as [_|N]; [|done].
  by rewrite bool_decide_eq_true_2.
Qed.

Lemma should_rebalance_monthly_same_month_witness :
  valid_datetime (mk_datetime 2024 1 15 0 0 0 0) = true
  ∧ valid_datetime (mk_datetime 2025 1 15 0 0 0 0) = true
  ∧ should_rebalance "monthly" (Some (mk_datetime 2024 1 15 0 0 0 0))
                     (mk_datetime 2025 1 15 0 0 0 0) = false.
Proof.
  split; [reflexivity|]. split; [reflexivity|].
  apply (should_rebalance_monthly_same_month
           (mk_datetime 2024 1 15 0 0 0 0) (mk_datetime 2025 1 15 0 0 0 0)).
  reflexivity.
Defined.

(** The monthly rule in full: a rebalance is due exactly when the month
    numbers differ. *)
Lemma should_rebalance_monthly (last now : datetime) :
  should_rebalance "monthly" (Some last) now = true ↔ month now ≠ month last.
Proof.
  unfold should_rebalance.
  destruct (decide ("monthly"%string = "daily"%string)) as [E|_]; [discriminate E|].
  destruct (decide ("monthly"%string = "weekly"%string)) as [E|_]; [discriminate E|].
  destruct (decide ("monthly"%string = "monthly"%string)) as [_|N]; [|done].
  rewrite negb_true_iff, bool_decide_eq_false. done.
Qed.

Lemma should_rebalance_bootstrap frequency now :
  should_rebalance frequency None now = true.
Proof. reflexivity. Qed.

Lemma should_rebalance_daily last now :
  should_rebalance "daily" last now = true.
Proof. by destruct last. Qed.

(** ** The ledger under [execute_trade] *)

Lemma Z2Qc_0 : Z2Qc 0 = 0%Qc.
Proof. apply Qc_is_canon. reflexivity. Qed.

Lemma Z2Qc_add a b : Z2Qc (a + b) = (Z2Qc a + Z2Qc b)%Qc.
Proof.
  apply Qc_is_canon. unfold Z2Qc. simpl.
  rewrite !Qred_correct. by rewrite inject_Z_plus.
Qed.

Lemma updated_positions_lookup pos ticker shares other :
  updated_positions pos ticker shares !! other =
  if decide (ticker = other) then
    (if decide (get_shares pos ticker + shares = 0) then None
     else Some (get_shares pos ticker + shares))
  else pos !! other.
Proof.
  unfold updated_positions, get_shares.
  destruct (pos !! ticker) as [held|] eqn:Hheld; simpl;
    rewrite lookup_insert_eq; simpl;
    repeat case_decide; subst;
    rewrite ?lookup_delete_eq, ?lookup_delete_ne, ?lookup_insert_eq,
            ?lookup_insert_ne by done; done.
Qed.

Lemma updated_positions_get_shares pos ticker shares :
  get_shares (updated_positions pos ticker shares) ticker
  = get_shares pos ticker + shares.
Proof.
  unfold get_shares at 1. rewrite updated_positions_lookup.
  rewrite decide_True by done. by case_decide.
Qed.

Lemma updated_positions_other pos ticker shares other :
  ticker ≠ other →
  updated_positions pos ticker shares !! other = pos !! other.
Proof. intros. rewrite updated_positions_lookup. by rewrite decide_False. Qed.

(** C8: when no stored position is zero before [execute_trade], none is
    zero after it. *)
Theorem execute_trade_pruned ticker shares price timestamp pm :
  pruned (positions pm) →
  pruned (positions (execute_trade ticker shares price timestamp pm)).
Proof.
  intros Hp other q. simpl. rewrite updated_positions_lookup.
  case_decide; [|apply Hp]. case_decide; [done|]. congruence.
Qed.

Lemma execute_trade_pruned_witness :
  pruned (positions ledger_A)
  ∧ pruned (positions (execute_trade "X" (-500) (Z2Qc 100) t0 ledger_A)).
Proof.
  assert (Hpos : positions ledger_A = {["X"%string := 500]})
    by (vm_compute; reflexivity).
  assert (Hp : pruned (positions ledger_A)).
  { rewrite Hpos. unfold pruned. by apply map_Forall_singleton. }
  split; [exact Hp|].
  exact (execute_trade_pruned "X" (-500) (Z2Qc 100) t0 ledger_A Hp).
Defined.

(** The very entry the trade drives to zero is gone. *)
Lemma execute_trade_closes ticker price timestamp pm :
  positions (execute_trade ticker (- get_shares (positions pm) ticker)
               price timestamp pm) !! ticker = None.
Proof.
  simpl. rewrite updated_positions_lookup, decide_True by done.
  rewrite decide_True by lia. done.
Qed.

Lemma execute_trades_snoc calls c pm :
  execute_trades (calls ++ [c]) pm = apply_call (execute_trades calls pm) c.
Proof. unfold execute_trades. by rewrite foldl_app. Qed.

Lemma execute_trades_history_length calls pm :
  length (trade_history (execute_trades calls pm))
  = (length (trade_history pm) + length calls)%nat.
Proof.
  induction calls as [|c calls IH] using rev_ind; [simpl; lia|].
  rewrite execute_trades_snoc. simpl. rewrite !length_app, IH. simpl. lia.
Qed.

Lemma execute_trades_history_prefix calls more pm :
  trade_history (execute_trades calls pm)
    `prefix_of` trade_history (execute_trades (calls ++ more) pm).
Proof.
  induction more as [|c more IH] using rev_ind.
  - by rewrite app_nil_r.
  - rewrite app_assoc, execute_trades_snoc. simpl.
    etrans; [apply IH|]. by apply prefix_app_r.
Qed.

(** C3: in any run of [execute_trade] calls, the record appended by the
    call number [i] (the entry number [length history + i] of the final
    history) carries the arguments of that call, its [cash_after] is the
    cash just before the call minus [shares * price], and it is the cash
    just after the call. *)
Theorem trade_cash_conservation (pm : PortfolioManager) (calls : list trade_call)
    (i : nat) (c : trade_call) :
  calls !! i = Some c →
  let before := execute_trades (take i calls) pm in
  let after := execute_trades (take (S i) calls) pm in
  ∃ trade,
    trade_history (execute_trades calls pm) !! (length (trade_history pm) + i)%nat
      = Some trade
    ∧ trade_history after = trade_history before ++ [trade]
    ∧ tr_shares trade = c.1.1.2 ∧ tr_price trade = c.1.2
    ∧ tr_cash_after trade = (cash before - Z2Qc (tr_shares trade) * tr_price trade)%Qc
    ∧ tr_cash_after trade = cash after.
Proof.
  intros Hi before after.
  assert (Hafter : after = apply_call before c).
  { unfold after, before. rewrite (take_S_r _ _ _ Hi). apply execute_trades_snoc. }
  eexists. split; [|split; [by rewrite Hafter|by rewrite Hafter]].
  pose proof (execute_trades_history_prefix (take (S i) calls) (drop (S i) calls) pm)
    as Hpre.
  rewrite take_drop in Hpre. fold after in Hpre.
  eapply prefix_lookup_Some; [|exact Hpre].
  rewrite Hafter. simpl.
  rewrite lookup_app_r; unfold before; rewrite execute_trades_history_length.
  - rewrite length_take_le by (apply lookup_lt_Some in Hi; lia).
    by rewrite Nat.sub_diag.
  - rewrite length_take. lia.
Qed.

Lemma trade_cash_conservation_witness :
  ∃ trade,
    trade_history (execute_trades [("X"%string, 500, Z2Qc 100, t0);
                                   ("X"%string, -200, Z2Qc 110, t0)]
                     (init_portfolio (Z2Qc 100000))) !! 1%nat = Some trade
    ∧ tr_cash_after trade = Z2Qc 72000.
Proof.
  destruct (trade_cash_conservation (init_portfolio (Z2Qc 100000))
              [("X"%string, 500, Z2Qc 100, t0); ("X"%string, -200, Z2Qc 110, t0)]
              1 ("X"%string, -200, Z2Qc 110, t0) eq_refl)
    as (trade & Hlook & _ & _ & _ & _ & Hcash).
  exists trade. split; [exact Hlook|]. rewrite Hcash. vm_compute. reflexivity.
Defined.

(** ** Portfolio value under trades *)

Lemma position_value_split prices pos ticker :
  position_value prices pos
  = (Z2Qc (get_shares pos ticker) * get_price prices ticker
     + position_value prices (delete ticker pos))%Qc.
Proof.
  unfold position_value, get_shares.
  destruct (pos !! ticker) as [held|] eqn:Hheld; simpl.
  - rewrite (map_fold_delete_L _ _ ticker held pos); [ring| |done].
    intros; ring.
  - rewrite delete_id by done. rewrite Z2Qc_0. ring.
Qed.

Lemma delete_updated_positions pos ticker shares :
  delete ticker (updated_positions pos ticker shares) = delete ticker pos.
Proof.
  apply map_eq. intros other. destruct (decide (ticker = other)) as [->|Hne].
  - by rewrite !lookup_delete_eq.
  - rewrite !lookup_delete_ne by done. by apply updated_positions_other.
Qed.

Lemma position_value_updated prices pos ticker shares :
  position_value prices (updated_positions pos ticker shares)
  = (position_value prices pos + Z2Qc shares * get_price prices ticker)%Qc.
Proof.
  rewrite (position_value_split prices (updated_positions pos ticker shares) ticker).
  rewrite (position_value_split prices pos ticker).
  rewrite updated_positions_get_shares, delete_updated_positions, Z2Qc_add. ring.
Qed.

(** A trade at the quoted price moves value between cash and the position
    and changes nothing in total. *)
Lemma execute_trade_value prices ticker shares price timestamp pm :
  prices !! ticker = Some price →
  get_portfolio_value prices (execute_trade ticker shares price timestamp pm)
  = get_portfolio_value prices pm.
Proof.
  intros Hp. unfold get_portfolio_value. simpl.
  rewrite position_value_updated. unfold get_price. rewrite Hp. simpl. ring.
Qed.

Lemma position_value_unquoted prices pos :
  (∀ ticker shares, pos !! ticker = Some shares →
     prices !! ticker = None ∨ shares = 0) →
  position_value prices pos = 0%Qc.
Proof.
  unfold position_value.
  apply (map_fold_weak_ind (λ r m,
    (∀ ticker shares, m !! ticker = Some shares →
       prices !! ticker = None ∨ shares = 0) → r = 0%Qc)); [done|].
  intros ticker shares m r Hnone IH Hall.
  rewrite IH.
  - destruct (Hall ticker shares) as [Hp| ->]; [by rewrite lookup_insert_eq| |].
    + unfold get_price. rewrite Hp. simpl. ring.
    + rewrite Z2Qc_0. ring.
  - intros other q Hother. apply Hall.
    rewrite lookup_insert_ne; [done|]. intros ->. congruence.
Qed.

(** ** The reconciliation loop *)

Section Reconcile.

Variables (target_shares : gmap string Z) (current_prices : gmap string Qc)
          (timestamp : datetime).

Local Abbreviation step := (reconcile_step target_shares current_prices timestamp).
Local Abbreviation loop := (reconcile target_shares current_prices timestamp).

Lemma reconcile_cons ticker order st :
  loop (ticker :: order) st = loop order (step st ticker).
Proof. reflexivity. Qed.

Lemma reconcile_step_value st ticker :
  get_portfolio_value current_prices (step st ticker).1
  = get_portfolio_value current_prices st.1.
Proof.
  unfold reconcile_step.
  destruct (current_prices !! ticker) as [price|] eqn:Hp; [|done].
  case_decide; [done|]. simpl. by apply execute_trade_value.
Qed.

Lemma reconcile_value order st :
  get_portfolio_value current_prices (loop order st).1
  = get_portfolio_value current_prices st.1.
Proof.
  revert st. induction order as [|ticker order IH]; intros st; [done|].
  rewrite reconcile_cons, IH. apply reconcile_step_value.
Qed.

Lemma reconcile_step_frame st ticker :
  initial_capital (step st ticker).1 = initial_capital st.1
  ∧ portfolio_value_history (step st ticker).1 = portfolio_value_history st.1.
Proof.
  unfold reconcile_step.
  destruct (current_prices !! ticker); [|done]. by case_decide.
Qed.

Lemma reconcile_frame order st :
  initial_capital (loop order st).1 = initial_capital st.1
  ∧ portfolio_value_history (loop order st).1 = portfolio_value_history st.1.
Proof.
  revert st. induction order as [|ticker order IH]; intros st; [done|].
  rewrite reconcile_cons. destruct (IH (step st ticker)) as [-> ->].
  apply reconcile_step_frame.
Qed.

(** What a visit does to the entry of the visited ticker and to the
    others. *)
Lemma reconcile_step_lookup st ticker other :
  positions (step st ticker).1 !! other =
  if decide (ticker = other ∧ is_Some (current_prices !! ticker))
  then settle (get_shares target_shares ticker) (positions st.1 !! ticker)
  else positions st.1 !! other.
Proof.
  unfold reconcile_step, settle, get_shares.
  destruct (current_prices !! ticker) as [price|] eqn:Hp.
  - case_decide as Hz.
    + case_decide as Hc; [|done]. destruct Hc as [-> _].
      rewrite decide_True; [done|lia].
    + simpl. rewrite updated_positions_lookup. unfold get_shares.
      destruct (decide (ticker = other)) as [->|Hne].
      * replace (default 0 (positions st.1 !! other)
               + (default 0 (target_shares !! other)
                  - default 0 (positions st.1 !! other)))
        with (default 0 (target_shares !! other)) by lia.
      rewrite (decide_True (P := other = other ∧ _)) by (split; [done|eauto]).
      rewrite (decide_False (P := _ = default 0 (positions st.1 !! other))) by lia.
      done.
    * rewrite decide_False; [done|]. by intros [? _].
  - rewrite decide_False; [done|]. intros [_ [? ?]]. congruence.
Qed.

Lemma settle_get target held : default 0 (settle target held) = target.
Proof. unfold settle. repeat case_decide; simpl; congruence. Qed.

Lemma settle_settle target held : settle target (settle target held) = settle target held.
Proof.
  unfold settle at 1. rewrite settle_get. by rewrite decide_True.
Qed.

(** After the loop a priced ticker that was visited is settled, every
    other ticker has the entry it had. *)
Lemma reconcile_lookup order st other :
  positions (loop order st).1 !! other =
  if decide (other ∈ order ∧ is_Some (current_prices !! other))
  then settle (get_shares target_shares other) (positions st.1 !! other)
  else positions st.1 !! other.
Proof.
  revert st. induction order as [|ticker order IH]; intros st.
  - rewrite decide_False; [done|]. intros [H _]. by apply elem_of_nil in H.
  - rewrite reconcile_cons, IH. rewrite !reconcile_step_lookup.
    destruct (decide (ticker = other)) as [->|Hne].
    + destruct (decide (is_Some (current_prices !! other))) as [Hp|Hp].
      * rewrite (decide_True (P := other = other ∧ _)) by done.
        rewrite (decide_True (P := other ∈ other :: order ∧ _))
          by (split; [left|done]).
        case_decide; [apply settle_settle|done].
      * rewrite !decide_False; tauto.
    + rewrite (decide_False (P := ticker = other ∧ _)) by tauto.
      destruct (decide (other ∈ order ∧ is_Some (current_prices !! other)))
        as [[Hin Hp]|Hno].
      * rewrite decide_True; [done|]. split; [by right|done].
      * rewrite decide_False; [done|]. intros [Hin Hp]. apply Hno.
        apply elem_of_cons in Hin as [->|Hin]; done.
Qed.




End Reconcile.

(** ** Rebalancing *)

Lemma elements_enumerates : enumerates elements.
Proof. intros s. reflexivity. Qed.

Lemma enumerates_elem_of set_iter (s : gset string) ticker :
  enumerates set_iter → ticker ∈ set_iter s ↔ ticker ∈ s.
Proof. intros Hiter. rewrite (Hiter s). apply elem_of_elements. Qed.


Section RebalanceProperties.

Variable set_iter : gset string → list string.

(** The ledger a call leaves is the one its trading loop leaves, with one
    valuation record more when the call returns. *)
Lemma rebalance_portfolio_ledger W P ts pm :
  let result := rebalance_portfolio set_iter W P ts pm in
  let run := rebalance_trades set_iter W P ts pm in
  initial_capital result.1.1 = initial_capital pm
  ∧ cash result.1.1 = cash run.1
  ∧ positions result.1.1 = positions run.1
  ∧ trade_history result.1.1 = trade_history run.1
  ∧ result.1.2 = run.2.
Proof.
  intros result run. unfold result, rebalance_portfolio. fold run.
  assert (Hcap : initial_capital run.1 = initial_capital pm)
    by apply reconcile_frame.
  by case_decide.
Qed.

Lemma rebalance_trades_value W P ts pm :
  get_portfolio_value P (rebalance_trades set_iter W P ts pm).1
  = get_portfolio_value P pm.
Proof. unfold rebalance_trades. by rewrite reconcile_value. Qed.

Lemma rebalance_portfolio_value W P ts pm :
  get_portfolio_value P (rebalance_portfolio set_iter W P ts pm).1.1
  = get_portfolio_value P pm.
Proof.
  destruct (rebalance_portfolio_ledger W P ts pm) as (_ & Hc & Hp & _).
  unfold get_portfolio_value at 1. rewrite Hc, Hp.
  apply rebalance_trades_value.
Qed.

(** C9: a rebalance leaves the portfolio value at the given quotes as it
    found it, and the record a returning call appends holds the value
    computed at the start of that call.  (The call returns unless the initial
    capital is zero; then it raises after the trades and appends nothing.) *)
Theorem rebalance_preserves_value W P ts pm :
  let total_value := get_portfolio_value P pm in
  let result := rebalance_portfolio set_iter W P ts pm in
  get_portfolio_value P result.1.1 = total_value
  ∧ (initial_capital pm ≠ 0%Qc →
       result.2 = Returned
       ∧ ∃ record,
           portfolio_value_history result.1.1
             = portfolio_value_history pm ++ [record]
           ∧ vr_value record = total_value)
  ∧ (initial_capital pm = 0%Qc →
       result.2 = ZeroDivisionError
       ∧ portfolio_value_history result.1.1 = portfolio_value_history pm).
Proof.
  intros total_value result. split; [apply rebalance_portfolio_value|].
  unfold result, rebalance_portfolio.
  set (run := rebalance_trades set_iter W P ts pm).
  assert (Hframe : initial_capital run.1 = initial_capital pm
                   ∧ portfolio_value_history run.1 = portfolio_value_history pm)
    by apply reconcile_frame.
  destruct Hframe as [Hcap Hhist].
  assert (Hval : get_portfolio_value P run.1 = total_value)
    by apply rebalance_trades_value.
  split; intros Hc; case_decide; try congruence; simpl.
  - split; [done|]. eexists. split; [by rewrite Hhist|]. simpl. exact Hval.
  - by split.
Qed.

(** C7: a held ticker without a quote has the same quantity after the
    call. *)
Theorem rebalance_keeps_unquoted W P ts pm ticker shares :
  positions pm !! ticker = Some shares →
  P !! ticker = None →
  positions (rebalance_portfolio set_iter W P ts pm).1.1 !! ticker = Some shares.
Proof.
  intros Hheld Hquote.
  destruct (rebalance_portfolio_ledger W P ts pm) as (_ & _ & -> & _).
  unfold rebalance_trades. rewrite reconcile_lookup.
  rewrite decide_False; [done|]. rewrite Hquote. by intros [_ [? ?]].
Qed.

Hypothesis set_iter_enumerates : enumerates set_iter.

(** After the trading loop every quoted ticker holds its target. *)
Lemma rebalance_trades_settled W P ts pm ticker :
  is_Some (P !! ticker) →
  get_shares (positions (rebalance_trades set_iter W P ts pm).1) ticker
  = get_shares (target_shares_of (get_portfolio_value P pm) W P) ticker.
Proof.
  intros Hp. unfold rebalance_trades, get_shares at 1. rewrite reconcile_lookup.
  case_decide as Hin; [apply settle_get|].
  assert (Hout : ticker ∉ dom (positions pm)
                  ∪ dom (target_shares_of (get_portfolio_value P pm) W P)).
  { intros Hd. apply Hin. split; [|done].
    by apply enumerates_elem_of. }
  apply not_elem_of_union in Hout as [H1 H2].
  apply not_elem_of_dom in H1, H2. unfold get_shares. simpl. by rewrite H1, H2.
Qed.



End RebalanceProperties.


Lemma rebalance_preserves_value_witness :
  initial_capital (init_portfolio (Z2Qc 100000)) ≠ 0%Qc
  ∧ ∃ record,
      portfolio_value_history ledger_A = [record]
      ∧ vr_value record = Z2Qc 100000.
Proof.
  assert (Hcap : initial_capital (init_portfolio (Z2Qc 100000)) ≠ 0%Qc)
    by (intros E; discriminate E).
  split; [exact Hcap|].
  destruct (rebalance_preserves_value elements half_in_X quotes_X t0
              (init_portfolio (Z2Qc 100000))) as (_ & Hret & _).
  destruct (Hret Hcap) as (_ & record & Hhist & Hval).
  exists record. split; [exact Hhist|].
  rewrite Hval. vm_compute. reflexivity.
Defined.

Lemma rebalance_keeps_unquoted_witness :
  positions (rebalance_portfolio elements half_in_X quotes_X t0 ledger_stale).1.1
    !! "Y" = Some 10.
Proof.
  apply (rebalance_keeps_unquoted elements half_in_X quotes_X t0 ledger_stale "Y" 10).
  - reflexivity.
  - reflexivity.
Defined.



(** Where the claim fails: the 500 shares of Scenario A are sold and the
    cash is the whole value. *)
Example rebalance_empty_targets_sells :
  let result := rebalance_portfolio elements ∅ quotes_X t0 ledger_A in
  result.1.2 = 1%nat ∧ positions result.1.1 = ∅ ∧ cash result.1.1 = Z2Qc 100000.
Proof. repeat split; vm_compute; reflexivity. Qed.

(** The cycle never hands an empty table of targets to the rebalance: with
    no signal the engine is left as it was.  This gate, not the rebalance
    itself, is what keeps held positions when there is no signal. *)
Lemma cycle_skips_empty_signals set_iter io engine :
  calculate_signals (tickers engine) (historical_data io) = ∅ →
  run_trading_cycle set_iter io engine
  = (engine, if market_open io
             then if decide (live_prices io = ∅) then Returned
                  else if decide (initial_capital (portfolio engine) = 0%Qc)
                       then ZeroDivisionError else Returned
             else Returned).
Proof.
  intros Hsig. unfold run_trading_cycle. rewrite Hsig.
  destruct (market_open io); simpl; [|done].
  repeat case_decide; try done.
  by destruct (should_rebalance _ _ _).
Qed.

Lemma cycle_without_history_keeps_portfolio set_iter io engine :
  historical_data io = None →
  portfolio (run_trading_cycle set_iter io engine).1 = portfolio engine.
Proof.
  intros Hnone. rewrite cycle_skips_empty_signals; [done|]. by rewrite Hnone.
Qed.

(** ** Signals *)

Example scenario_D :
  wf_frame frame_D
  ∧ calculate_signals tickers_D (Some frame_D)
    = {[ "A" := 0%Qc; "B" := 0%Qc; "C" := 0%Qc; "D" := long_weight; "E" := 0%Qc ]}.
Proof.
  split.
  - unfold wf_frame. apply map_Forall_to_list. vm_compute.
    repeat (constructor; [reflexivity|]). constructor.
  - vm_compute. reflexivity.
Qed.

(** With the thresholds taken over all five columns A would rank at 0.2 and
    be sold short; over the four ranked ones it ranks at 0.25. *)
Example scenario_D_ranks :
  let ranked := rank_pct (momentum_score frame_D) in
  (λ r, feq r (Fin (Q2Qc (1 # 4)))) <$> ranked !! "A" = Some true
  ∧ (λ r, feq r (Fin 1%Qc)) <$> ranked !! "D" = Some true
  ∧ ranked !! "E" = Some NaN.
Proof. repeat split; vm_compute; reflexivity. Qed.

(** Fewer than 64 prices do not exclude a column when the price 63 rows
    before the last one is there. *)
Example gap_column_is_ranked :
  (observations (Fin (Z2Qc 100) :: NaN :: prices_ending 62 110) = 63)%nat
  ∧ calculate_signals ["G"%string] (Some frame_gap) = {[ "G" := long_weight ]}.
Proof. split; vm_compute; reflexivity. Qed.

Lemma fdiv_nan_r x : fdiv x NaN = NaN.
Proof. by destruct x. Qed.

Lemma length_shift k col : length (shift k col) = length col.
Proof.
  unfold shift. rewrite length_take, length_app, length_replicate. lia.
Qed.

Lemma lookup_shift k col i :
  (i < length col)%nat →
  shift k col !! i = if (i <? k)%nat then Some NaN else col !! (i - k)%nat.
Proof.
  intros Hi. unfold shift. rewrite lookup_take_lt by done.
  destruct (Nat.ltb_spec i k).
  - rewrite lookup_app_l by (by rewrite length_replicate).
    by apply lookup_replicate_2.
  - rewrite lookup_app_r by (by rewrite length_replicate).
    by rewrite length_replicate.
Qed.

(** The last row of the momentum table is the last price over the price 63
    rows before it, minus one, and is missing when there are fewer than 64
    rows. *)
Lemma momentum_last col : iloc_last (momentum_3m col) = momentum_at_end col.
Proof.
  unfold iloc_last, momentum_3m, momentum_at_end, cell.
  rewrite last_lookup, length_fmap, length_zip_with, length_shift, Nat.min_id.
  destruct (length col) as [|i] eqn:Hlen.
  - apply nil_length_inv in Hlen. by subst.
  - simpl pred. rewrite list_lookup_fmap, lookup_zip_with.
    destruct (lookup_lt_is_Some_2 col i) as [x Hx]; [lia|].
    replace (S i - 1)%nat with i by lia.
    rewrite Hx, lookup_shift by lia.
    destruct (Nat.ltb_spec (S i) 64) as [Hlt|Hge].
    + rewrite (proj2 (Nat.ltb_lt i 63)) by lia. simpl. by rewrite fdiv_nan_r.
    + rewrite (proj2 (Nat.ltb_ge i 63)) by lia.
      replace (S i - 64)%nat with (i - 63)%nat by lia.
      destruct (lookup_lt_is_Some_2 col (i - 63)) as [y Hy]; [lia|].
      by rewrite Hy.
Qed.

(** A history that starts late, with fewer than 64 rows since, has no
    momentum. *)
Lemma momentum_short_history gaps obs :
  (length obs < 64)%nat →
  iloc_last (momentum_3m (replicate gaps NaN ++ obs)) = NaN.
Proof.
  intros Hobs. rewrite momentum_last. unfold momentum_at_end, cell.
  rewrite length_app, length_replicate.
  destruct (Nat.ltb_spec (gaps + length obs) 64) as [|Hge]; [done|].
  rewrite (lookup_app_l _ _ (gaps + length obs - 64))
    by (rewrite length_replicate; lia).
  rewrite lookup_replicate_2 by lia. simpl. by rewrite fdiv_nan_r.
Qed.

Lemma signal_of_rank_nan : signal_of_rank NaN = 0%Qc.
Proof. reflexivity. Qed.

Lemma signals_fold_lookup ranked tickers acc ticker :
  foldl (signals_step ranked) acc tickers !! ticker =
  match ranked !! ticker with
  | Some rank =>
      if decide (ticker ∈ tickers) then Some (signal_of_rank rank)
      else acc !! ticker
  | None => acc !! ticker
  end.
Proof.
  revert acc. induction tickers as [|t tickers IH]; intros acc.
  - destruct (ranked !! ticker); [|done].
    rewrite decide_False; [done|]. apply not_elem_of_nil.
  - change (foldl (signals_step ranked) acc (t :: tickers))
      with (foldl (signals_step ranked) (signals_step ranked acc t) tickers).
    rewrite IH. unfold signals_step.
    destruct (decide (t = ticker)) as [->|Hne].
    + destruct (ranked !! ticker) as [rank|] eqn:Hr; [|done].
      rewrite (decide_True (P := ticker ∈ ticker :: tickers)) by left.
      case_decide; [done|]. by rewrite lookup_insert_eq.
    + assert (Hacc : match ranked !! t with
                     | Some rank => <[t := signal_of_rank rank]> acc
                     | None => acc
                     end !! ticker = acc !! ticker).
      { destruct (ranked !! t); [|done]. by rewrite lookup_insert_ne. }
      rewrite Hacc. destruct (ranked !! ticker); [|done].
      destruct (decide (ticker ∈ tickers)) as [Hin|Hout].
      * rewrite decide_True; [done|]. by right.
      * rewrite decide_False; [done|].
        intros [?|?]%elem_of_cons; [congruence|done].
Qed.

(** The entry of a ticker: none when it is not listed or not a column of
    the table, otherwise the weight for the rank of its momentum. *)
Lemma calculate_signals_lookup tickers df ticker :
  frame_empty df = false →
  calculate_signals tickers (Some df) !! ticker =
  match data df !! ticker with
  | Some col =>
      if decide (ticker ∈ tickers)
      then Some (signal_of_rank
                   (pct_rank_of (momentum_score df) (iloc_last (momentum_3m col))))
      else None
  | None => None
  end.
Proof.
  intros Hne. unfold calculate_signals. rewrite Hne, signals_fold_lookup.
  unfold rank_pct, momentum_score. rewrite !lookup_fmap.
  destruct (data df !! ticker) as [col|]; simpl; [|done].
  by rewrite lookup_empty.
Qed.

Lemma count_if_ranked_only Q (s : gmap string float) :
  (∀ u, Q u = true → notna u = true) →
  count_if Q (filter (λ kv, Is_true (notna kv.2)) s) = count_if Q s.
Proof.
  intros HQ. unfold count_if. f_equal.
  apply map_filter_strong_ext_1. intros i x.
  rewrite map_lookup_filter_Some. simpl. split; [tauto|].
  intros [Hx Hs]. repeat split; try done.
  apply Is_true_true, HQ. by apply Is_true_true.
Qed.

Lemma flt_notna u v : flt u v = true → notna u = true.
Proof. by destruct u. Qed.

Lemma feq_notna u v : feq u v = true → notna u = true.
Proof. by destruct u. Qed.

(** Ranks do not see the columns without a momentum. *)
Lemma pct_rank_of_ranked_only (s : gmap string float) v :
  pct_rank_of (filter (λ kv, Is_true (notna kv.2)) s) v = pct_rank_of s v.
Proof.
  unfold pct_rank_of.
  rewrite (count_if_ranked_only (λ u, flt u v)) by (intros u; apply flt_notna).
  rewrite (count_if_ranked_only (λ u, feq u v)) by (intros u; apply feq_notna).
  by rewrite (count_if_ranked_only notna).
Qed.

Lemma momentum_score_drop_unranked df :
  momentum_score (drop_unranked df)
  = filter (λ kv, Is_true (notna kv.2)) (momentum_score df).
Proof.
  unfold momentum_score, drop_unranked. simpl.
  rewrite map_filter_fmap. reflexivity.
Qed.

(** C2, as stated, fails: E has 63 prices and gets the entry 0. *)
Lemma signals_absent_refuted : ¬ absent_without_history tickers_D frame_D.
Proof.
  intros H. specialize (H "E"%string (NaN :: prices_ending 63 150)).
  assert (Hin : "E"%string ∈ tickers_D) by (apply list_elem_of_In; vm_compute; tauto).
  assert (Hobs : (observations (NaN :: prices_ending 63 150) < 64)%nat)
    by (vm_compute; lia).
  specialize (H Hin eq_refl Hobs).
  vm_compute in H. discriminate H.
Qed.

(** C2, amended: every listed instrument that is a column of the table and
    whose history starts late, with fewer than 64 rows since (so that the
    price 63 rows before the last one is missing), gets the entry 0, not an
    absence; an instrument that is not a column gets no entry; and the entry
    of an instrument that has a momentum is the one computed from the table
    without the columns that have none, i.e. ranks and thresholds are taken
    over the instruments with a momentum only. *)
Theorem signals_insufficient_history (tickers : list string) (df : DataFrame) :
  frame_empty df = false →
  (∀ ticker gaps obs,
     ticker ∈ tickers →
     data df !! ticker = Some (replicate gaps NaN ++ obs) →
     (length obs < 64)%nat →
     calculate_signals tickers (Some df) !! ticker = Some 0%Qc)
  ∧ (∀ ticker,
       data df !! ticker = None →
       calculate_signals tickers (Some df) !! ticker = None)
  ∧ (∀ ticker col,
       data df !! ticker = Some col →
       ranked_column (ticker, col) →
       calculate_signals tickers (Some df) !! ticker
       = calculate_signals tickers (Some (drop_unranked df)) !! ticker).
Proof.
  intros Hne. split; [|split].
  - intros ticker gaps obs Hin Hcol Hobs.
    rewrite calculate_signals_lookup, Hcol, decide_True by done.
    by rewrite momentum_short_history.
  - intros ticker Hcol. by rewrite calculate_signals_lookup, Hcol.
  - intros ticker col Hcol Hranked.
    assert (Hcol' : data (drop_unranked df) !! ticker = Some col)
      by (by apply map_lookup_filter_Some_2).
    assert (Hne' : frame_empty (drop_unranked df) = false).
    { unfold frame_empty in *. apply orb_false_iff in Hne as [Hrows _].
      apply orb_false_iff. split; [exact Hrows|].
      apply bool_decide_eq_false. intros Hempty.
      rewrite Hempty, lookup_empty in Hcol'. discriminate Hcol'. }
    rewrite !calculate_signals_lookup, Hcol, Hcol' by done.
    by rewrite momentum_score_drop_unranked, pct_rank_of_ranked_only.
Qed.

Lemma signals_insufficient_history_witness :
  frame_empty frame_D = false
  ∧ calculate_signals tickers_D (Some frame_D) !! "E" = Some 0%Qc
  ∧ calculate_signals tickers_D (Some frame_D) !! "A"
    = calculate_signals tickers_D (Some (drop_unranked frame_D)) !! "A".
Proof.
  assert (Hne : frame_empty frame_D = false) by (vm_compute; reflexivity).
  destruct (signals_insufficient_history tickers_D frame_D Hne)
    as (Hshort & _ & Hrank).
  split; [exact Hne|]. split.
  - apply (Hshort "E"%string 1%nat (prices_ending 63 150)).
    + apply list_elem_of_In. vm_compute. tauto.
    + reflexivity.
    + vm_compute. lia.
  - apply (Hrank "A"%string (prices_ending 64 110)).
    + reflexivity.
    + vm_compute. exact I.
Defined.

(** * Further properties *)

(** ** Runs of trades *)





Lemma net_shares_cons ticker c calls :
  net_shares ticker (c :: calls)
  = (if decide (c.1.1.1 = ticker) then c.1.1.2 else 0) + net_shares ticker calls.
Proof. reflexivity. Qed.


Lemma net_shares_untouched ticker calls :
  ticker ∉ (λ c : trade_call, c.1.1.1) <$> calls → net_shares ticker calls = 0.
Proof.
  induction calls as [|c calls IH]; [done|].
  rewrite fmap_cons. intros Hout. apply not_elem_of_cons in Hout as [Hne Hout].
  rewrite net_shares_cons, IH by done.
  rewrite decide_False by done. lia.
Qed.












(** ** Valuation *)

Lemma position_value_insert prices pos ticker shares :
  pos !! ticker = None →
  position_value prices (<[ticker := shares]> pos)
  = (position_value prices pos + Z2Qc shares * get_price prices ticker)%Qc.
Proof.
  intros Hnone. unfold position_value.
  rewrite map_fold_insert_L; [done| |done]. intros; ring.
Qed.

Lemma position_value_agree prices prices' pos :
  (∀ ticker, is_Some (pos !! ticker) →
     get_price prices ticker = get_price prices' ticker) →
  position_value prices pos = position_value prices' pos.
Proof.
  induction pos as [|ticker shares pos Hnone IH] using map_ind; intros Hagree.
  - done.
  - rewrite !position_value_insert by done. rewrite IH, (Hagree ticker).
    + done.
    + rewrite lookup_insert_eq. eauto.
    + intros other Hother. apply Hagree.
      rewrite lookup_insert_ne; [done|]. intros ->. destruct Hother. congruence.
Qed.

(** X4: the value of a portfolio depends on the quotes of the held tickers
    only, a missing quote counting as a price of zero: two tables of quotes
    that give every held ticker the same price (or both none, or one none and
    the other zero) give the same value. *)
Theorem portfolio_value_held_quotes (prices prices' : gmap string Qc)
    (pm : PortfolioManager) :
  (∀ ticker, is_Some (positions pm !! ticker) →
     get_price prices ticker = get_price prices' ticker) →
  get_portfolio_value prices pm = get_portfolio_value prices' pm.
Proof.
  intros Hagree. unfold get_portfolio_value.
  by rewrite (position_value_agree prices prices').
Qed.

Lemma portfolio_value_held_quotes_witness :
  get_portfolio_value {["X" := Z2Qc 100; "Z" := Z2Qc 7]} ledger_A
  = get_portfolio_value quotes_X ledger_A.
Proof.
  apply portfolio_value_held_quotes. intros ticker [held Hheld].
  assert (Hpos : positions ledger_A = {["X"%string := 500]})
    by (vm_compute; reflexivity).
  rewrite Hpos in Hheld. apply lookup_singleton_Some in Hheld as [<- _].
  reflexivity.
Defined.


(** The value without any quote, and of a ledger without positions, is the
    cash. *)
Lemma portfolio_value_no_quotes pm : get_portfolio_value ∅ pm = cash pm.
Proof.
  unfold get_portfolio_value. rewrite position_value_unquoted; [ring|].
  intros ticker shares _. by left.
Qed.

(** ** The trades of a rebalance *)

Lemma filter_ext_in {A} (P Q : A → Prop) `{!∀ x, Decision (P x)}
    `{!∀ x, Decision (Q x)} (l : list A) :
  (∀ x, x ∈ l → P x ↔ Q x) → filter P l = filter Q l.
Proof.
  induction l as [|x l IH]; intros Hext; [done|].
  rewrite !filter_cons.
  assert (Hx : P x ↔ Q x) by (apply Hext; left).
  rewrite IH by (intros y Hy; apply Hext; by right).
  destruct (decide (P x)), (decide (Q x)); tauto.
Qed.

Lemma updated_positions_pruned pos ticker shares :
  pruned pos → pruned (updated_positions pos ticker shares).
Proof.
  intros Hp other q. rewrite updated_positions_lookup.
  case_decide; [|apply Hp]. case_decide; [done|]. congruence.
Qed.

Section ReconcileTrades.

Variables (target_shares : gmap string Z) (current_prices : gmap string Qc)
          (timestamp : datetime).

Local Abbreviation step := (reconcile_step target_shares current_prices timestamp).
Local Abbreviation loop := (reconcile target_shares current_prices timestamp).
Local Abbreviation needs := (needs_trade target_shares current_prices).
Local Abbreviation made_from := (trade_made_from target_shares current_prices timestamp).

Lemma reconcile_step_cases st ticker :
  (needs (positions st.1) ticker = false ∧ step st ticker = st)
  ∨ (needs (positions st.1) ticker = true
     ∧ ∃ trade, made_from (positions st.1) trade ∧ tr_ticker trade = ticker
         ∧ trade_history (step st ticker).1 = trade_history st.1 ++ [trade]
         ∧ (step st ticker).2 = S st.2).
Proof.
  unfold reconcile_step, needs_trade.
  destruct (current_prices !! ticker) as [price|] eqn:Hp.
  - case_decide as Hz.
    + left. split; [|done]. apply bool_decide_eq_false. intros [_ Hne]. lia.
    + right. split; [apply bool_decide_eq_true; split; [eauto|lia]|].
      eexists. split; [|split; [|split]]; [| |reflexivity|reflexivity]; [|done].
      unfold trade_made_from. simpl. by rewrite Hp.
  - left. split; [|done]. apply bool_decide_eq_false. by intros [[? ?] _].
Qed.

Lemma needs_trade_other st ticker other :
  ticker ≠ other →
  needs (positions (step st ticker).1) other = needs (positions st.1) other.
Proof.
  intros Hne. unfold needs_trade, get_shares.
  rewrite reconcile_step_lookup, decide_False; [done|]. by intros [? _].
Qed.

Lemma made_from_other st ticker trade :
  ticker ≠ tr_ticker trade →
  made_from (positions (step st ticker).1) trade → made_from (positions st.1) trade.
Proof.
  intros Hne. unfold trade_made_from, get_shares.
  rewrite reconcile_step_lookup, decide_False; [done|]. by intros [? _].
Qed.

(** The records the loop appends, in order: one for each visited ticker
    that needs a trade. *)
Lemma reconcile_trades order st :
  NoDup order →
  ∃ added,
    trade_history (loop order st).1 = trade_history st.1 ++ added
    ∧ (loop order st).2 = (st.2 + length added)%nat
    ∧ tr_ticker <$> added = filter (λ t, Is_true (needs (positions st.1) t)) order
    ∧ Forall (made_from (positions st.1)) added.
Proof.
  revert st. induction order as [|ticker order IH]; intros st Hnd.
  - exists []. simpl. rewrite app_nil_r. repeat split; [lia|constructor].
  - apply NoDup_cons in Hnd as [Hout Hnd].
    rewrite reconcile_cons.
    destruct (IH (step st ticker) Hnd) as (added & Hh & Hn & Ht & Hm).
    assert (Hfilter : filter (λ t, Is_true (needs (positions (step st ticker).1) t)) order
                      = filter (λ t, Is_true (needs (positions st.1) t)) order).
    { apply filter_ext_in. intros other Hin.
      rewrite needs_trade_other; [done|]. intros ->. done. }
    assert (Hmade : Forall (made_from (positions st.1)) added).
    { apply Forall_forall. intros trade Hin.
      apply (made_from_other st ticker).
      - intros ->. apply Hout.
        assert (Hin' : tr_ticker trade ∈ tr_ticker <$> added)
          by (by apply list_elem_of_fmap_2).
        rewrite Ht in Hin'. by apply list_elem_of_filter in Hin' as [_ ?].
      - by eapply Forall_forall in Hm. }
    destruct (reconcile_step_cases st ticker)
      as [[Hno Hsame]|(Hyes & trade & Htr & Htk & Hhist & Hcount)].
    + exists added. rewrite Hsame in Hh, Hn.
      rewrite filter_cons_False by (rewrite Hno; auto).
      rewrite Hsame.
      split; [exact Hh|]. split; [exact Hn|]. split; [|exact Hmade].
      by rewrite Ht, Hfilter.
    + exists (trade :: added). rewrite Hh, Hn, Hhist, Hcount.
      rewrite filter_cons_True by (by rewrite Hyes).
      rewrite fmap_cons, Ht, Hfilter, Htk, <- app_assoc.
      split; [done|]. split; [simpl; lia|]. split; [done|]. by constructor.
Qed.

Lemma reconcile_pruned order st :
  pruned (positions st.1) → pruned (positions (loop order st).1).
Proof.
  revert st. induction order as [|ticker order IH]; intros st Hp; [done|].
  rewrite reconcile_cons. apply IH. unfold reconcile_step.
  destruct (current_prices !! ticker); [|done].
  case_decide; [done|]. simpl. by apply updated_positions_pruned.
Qed.

End ReconcileTrades.

Lemma enumerates_NoDup set_iter (s : gset string) :
  enumerates set_iter → NoDup (set_iter s).
Proof. intros Hiter. rewrite (Hiter s). apply NoDup_elements. Qed.

Lemma Z2Qc_opp a : Z2Qc (- a) = (- Z2Qc a)%Qc.
Proof.
  apply Qc_is_canon. unfold Z2Qc. simpl. by rewrite !Qred_correct.
Qed.



Section RebalanceTrades.

Variable set_iter : gset string → list string.
Hypothesis set_iter_enumerates : enumerates set_iter.

(** X6: after a rebalance every ticker that has a quote holds exactly its
    target: the whole number of shares [int (total_value * weight / price)]
    when it has a weight and its quote is not zero, and nothing otherwise
    (no weight, or a quote of zero). *)
Theorem rebalance_reaches_targets W P ts pm ticker price :
  P !! ticker = Some price →
  let total_value := get_portfolio_value P pm in
  get_shares (positions (rebalance_portfolio set_iter W P ts pm).1.1) ticker
  = match W !! ticker with
    | Some weight =>
        if decide (price = 0%Qc) then 0 else int (total_value * weight / price)
    | None => 0
    end.
Proof.
  intros Hquote total_value.
  destruct (rebalance_portfolio_ledger set_iter W P ts pm) as (_ & _ & -> & _).
  rewrite rebalance_trades_settled by eauto.
  unfold get_shares. rewrite target_shares_of_lookup, Hquote.
  destruct (W !! ticker); [|done]. by case_decide.
Qed.

Lemma rebalance_trades_shape W P ts pm :
  let result := rebalance_portfolio set_iter W P ts pm in
  let target_shares := target_shares_of (get_portfolio_value P pm) W P in
  let added := new_trades pm result.1.1 in
  trade_history result.1.1 = trade_history pm ++ added
  ∧ result.1.2 = length added
  ∧ tr_ticker <$> added
    = filter (λ t, Is_true (needs_trade target_shares P (positions pm) t))
        (set_iter (dom (positions pm) ∪ dom target_shares))
  ∧ Forall (trade_made_from target_shares P ts (positions pm)) added.
Proof.
  intros result target_shares added.
  destruct (rebalance_portfolio_ledger set_iter W P ts pm) as (_ & _ & _ & Hh & Hn).
  fold result in Hh, Hn.
  destruct (reconcile_trades target_shares P ts
              (set_iter (dom (positions pm) ∪ dom target_shares)) (pm, O))
    as (made & Hhist & Hcount & Htick & Hmade);
    [by apply enumerates_NoDup|].
  simpl in Hhist, Hcount, Htick, Hmade.
  assert (Hadded : added = made).
  { unfold added, new_trades. rewrite Hh. unfold rebalance_trades.
    fold target_shares. rewrite Hhist. by rewrite drop_app_length. }
  rewrite Hadded, Hh, Hn. unfold rebalance_trades. fold target_shares.
  done.
Qed.

(** X7: the trades of one rebalance.  The records appended to the trade
    history are as many as the counter says; no two are for the same ticker;
    a ticker is traded exactly when it has a quote and its holding differs
    from its target; and every record is for the difference between target
    and holding at the start of the call, which is not zero, at the quoted
    price, with cost shares times price. *)
Theorem rebalance_trades_made W P ts pm :
  let result := rebalance_portfolio set_iter W P ts pm in
  let target_shares := target_shares_of (get_portfolio_value P pm) W P in
  let added := new_trades pm result.1.1 in
  trade_history result.1.1 = trade_history pm ++ added
  ∧ result.1.2 = length added
  ∧ NoDup (tr_ticker <$> added)
  ∧ (∀ ticker, ticker ∈ tr_ticker <$> added
       ↔ is_Some (P !! ticker)
         ∧ get_shares target_shares ticker ≠ get_shares (positions pm) ticker)
  ∧ Forall (trade_made_from target_shares P ts (positions pm)) added.
Proof.
  intros result target_shares added.
  destruct (rebalance_trades_shape W P ts pm) as (Hhist & Hcount & Htick & Hmade).
  fold result target_shares added in Hhist, Hcount, Htick, Hmade.
  split; [exact Hhist|]. split; [exact Hcount|]. split; [|split; [|exact Hmade]].
  - rewrite Htick. apply NoDup_filter. by apply enumerates_NoDup.
  - intros ticker. rewrite Htick, list_elem_of_filter.
    unfold needs_trade. rewrite bool_decide_spec.
    rewrite enumerates_elem_of by done. split; [tauto|].
    intros [Hq Hne]. split; [done|].
    apply elem_of_union. rewrite !elem_of_dom.
    unfold get_shares in Hne.
    destruct (positions pm !! ticker); [left; eauto|].
    destruct (target_shares !! ticker); [right; eauto|done].
Qed.

(** X8: a rebalance stores no zero position when none was stored before. *)
Theorem rebalance_pruned W P ts pm :
  pruned (positions pm) →
  pruned (positions (rebalance_portfolio set_iter W P ts pm).1.1).
Proof.
  intros Hp.
  destruct (rebalance_portfolio_ledger set_iter W P ts pm) as (_ & _ & -> & _).
  by apply reconcile_pruned.
Qed.


End RebalanceTrades.



Lemma rebalance_reaches_targets_witness :
  get_shares (positions ledger_A) "X" = 500.
Proof.
  assert (Hquote : ({["X" := Z2Qc 100]} : gmap string Qc) !! "X"%string
                   = Some (Z2Qc 100)) by apply lookup_singleton_eq.
  unfold ledger_A.
  rewrite (rebalance_reaches_targets elements elements_enumerates
             {["X" := Q2Qc (1 # 2)]} {["X" := Z2Qc 100]} t0
             (init_portfolio (Z2Qc 100000)) "X" (Z2Qc 100) Hquote).
  vm_compute. reflexivity.
Defined.

Lemma rebalance_trades_made_witness :
  (rebalance_portfolio elements half_in_X quotes_XY t0 ledger_two).1.2
  = length (new_trades ledger_two
              (rebalance_portfolio elements half_in_X quotes_XY t0 ledger_two).1.1)
  ∧ NoDup (tr_ticker <$> new_trades ledger_two
             (rebalance_portfolio elements half_in_X quotes_XY t0 ledger_two).1.1).
Proof.
  destruct (rebalance_trades_made elements elements_enumerates
              half_in_X quotes_XY t0 ledger_two) as (_ & Hn & Hnd & _).
  split; [exact Hn|exact Hnd].
Defined.

Lemma rebalance_pruned_witness :
  pruned (positions ledger_A).
Proof.
  apply (rebalance_pruned elements {["X" := Q2Qc (1 # 2)]} {["X" := Z2Qc 100]} t0
           (init_portfolio (Z2Qc 100000))).
  unfold pruned. simpl. apply map_Forall_empty.
Defined.



(** The two enumerations trade X and Y in opposite orders. *)
Example rebalance_two_orders :
  tr_ticker <$> trade_history
    (rebalance_portfolio elements half_in_X quotes_XY t0 ledger_two).1.1
  = reverse (tr_ticker <$> trade_history
    (rebalance_portfolio reversed_iter half_in_X quotes_XY t0 ledger_two).1.1)
  ∧ length (trade_history
      (rebalance_portfolio elements half_in_X quotes_XY t0 ledger_two).1.1) = 2%nat.
Proof. split; vm_compute; reflexivity. Qed.

(** ** Timing and market hours *)

Lemma weekly_versus_calendar_witness :
  should_rebalance "weekly" (Some (mk_datetime 2024 1 1 23 0 0 0))
                   (mk_datetime 2024 1 9 1 0 0 0) = true.
Proof.
  apply (weekly_versus_calendar (mk_datetime 2024 1 1 23 0 0 0)
           (mk_datetime 2024 1 9 1 0 0 0)).
  - reflexivity.
  - reflexivity.
  - vm_compute. discriminate.
Defined.

Lemma elapsed_microseconds_add (a b c : datetime) :
  elapsed_microseconds a c = elapsed_microseconds a b + elapsed_microseconds b c.
Proof. unfold elapsed_microseconds. lia. Qed.

(** X12: the weekly rule never goes back: once a rebalance is due it is due
    at every instant that is not earlier. *)
Theorem weekly_stays_due (last now later : datetime) :
  should_rebalance "weekly" (Some last) now = true →
  0 ≤ elapsed_microseconds later now →
  should_rebalance "weekly" (Some last) later = true.
Proof.
  rewrite !weekly_due_iff, !timedelta_days_ge.
  rewrite (elapsed_microseconds_add later now last). lia.
Qed.

Lemma weekly_stays_due_witness :
  should_rebalance "weekly" (Some (mk_datetime 2024 1 1 23 0 0 0))
                   (mk_datetime 2024 2 1 0 0 0 0) = true.
Proof.
  apply (weekly_stays_due (mk_datetime 2024 1 1 23 0 0 0)
           (mk_datetime 2024 1 9 1 0 0 0) (mk_datetime 2024 2 1 0 0 0 0)).
  - reflexivity.
  - vm_compute. discriminate.
Defined.

(** X13: with a previous rebalance, a frequency other than the three known
    words never asks for a rebalance again, while without a previous
    rebalance every frequency asks for one; so an engine configured with an
    unknown word rebalances once and then never. *)
Theorem should_rebalance_unknown_frequency (frequency : string) (last now : datetime) :
  frequency ≠ "daily"%string →
  frequency ≠ "weekly"%string →
  frequency ≠ "monthly"%string →
  should_rebalance frequency None now = true
  ∧ should_rebalance frequency (Some last) now = false.
Proof.
  intros Hd Hw Hm. split; [done|]. unfold should_rebalance.
  by rewrite !decide_False.
Qed.

Lemma should_rebalance_unknown_frequency_witness :
  should_rebalance "Weekly" (Some (mk_datetime 2024 1 1 0 0 0 0))
                   (mk_datetime 2025 6 1 0 0 0 0) = false.
Proof.
  apply (should_rebalance_unknown_frequency "Weekly"
           (mk_datetime 2024 1 1 0 0 0 0) (mk_datetime 2025 6 1 0 0 0 0));
    discriminate.
Defined.

Lemma weekday_range d : 0 ≤ weekday d < 7.
Proof. unfold weekday. apply Z.mod_pos_bound. lia. Qed.

(** X14: the market counts as open exactly from Monday to Friday between
    14:30:00 and 21:00:00 of the clock reading, both ends included: it is
    open at 21:00:00.000000 and closed one microsecond later. *)
Theorem is_market_open_hours (now : datetime) :
  valid_datetime now = true →
  is_market_open now = true
  ↔ weekday now < 5
    ∧ 52200000000 ≤ microsecond_of_day now ≤ 75600000000.
Proof.
  intros Hv. unfold valid_datetime in Hv.
  repeat (apply andb_prop in Hv as [Hv ?]).
  unfold is_market_open, datetime_le, datetime_fields, replace_time,
    microsecond_of_day, seconds_in_day.
  cbn [lex_le year month day hour minute second microsecond].
  destruct (Z.leb_spec 5 (weekday now)) as [Hwd|Hwd]; [split; [done|lia]|].
  rewrite !Z.ltb_irrefl, !Z.eqb_refl, !orb_false_l, !andb_true_l, !andb_true_r.
  repeat rewrite ?orb_true_iff, ?andb_true_iff, ?Z.ltb_lt, ?Z.eqb_eq.
  lia.
Qed.

Lemma is_market_open_hours_witness :
  is_market_open (mk_datetime 2024 1 15 21 0 0 0) = true.
Proof.
  apply (is_market_open_hours (mk_datetime 2024 1 15 21 0 0 0)).
  - reflexivity.
  - vm_compute. repeat split; discriminate.
Defined.

Example market_closed_cases :
  is_market_open (mk_datetime 2024 1 15 21 0 0 1) = false
  ∧ is_market_open (mk_datetime 2024 1 15 14 29 59 999999) = false
  ∧ is_market_open (mk_datetime 2024 1 13 15 0 0 0) = false
  ∧ weekday (mk_datetime 2024 1 13 15 0 0 0) = 5.
Proof. repeat split. Qed.

(** ** One trading cycle *)


Section CycleProperties.

Variable set_iter : gset string → list string.







Hypothesis set_iter_enumerates : enumerates set_iter.



End CycleProperties.



(** The first cycle of the example buys 50 shares of D and nothing else. *)
Example cycle_D_trades :
  positions (portfolio (run_trading_cycle elements cycle_D engine_D).1)
  = {["D" := 50]}.
Proof. vm_compute. reflexivity. Qed.

(** ** Ranks and weights *)

Lemma size_filter_insert {A} (P : string * A → Prop) `{!∀ x, Decision (P x)}
    (m : gmap string A) i x :
  m !! i = None →
  size (filter P (<[i := x]> m))
  = ((if decide (P (i, x)) then 1 else 0) + size (filter P m))%nat.
Proof.
  intros Hnone. case_decide.
  - rewrite map_filter_insert_True by done.
    rewrite map_size_insert_None; [done|].
    by rewrite map_lookup_filter_None; left.
  - rewrite map_filter_insert_False by done. by rewrite delete_id.
Qed.

(** Counting three predicates that add up entry by entry. *)
Lemma size_filter_sum {A} (P Q R : string * A → Prop) `{!∀ x, Decision (P x)}
    `{!∀ x, Decision (Q x)} `{!∀ x, Decision (R x)} (m : gmap string A) :
  (∀ i x, m !! i = Some x →
     ((if decide (P (i, x)) then 1 else 0) + (if decide (Q (i, x)) then 1 else 0)
      = (if decide (R (i, x)) then 1 else 0))%nat) →
  (size (filter P m) + size (filter Q m) = size (filter R m))%nat.
Proof.
  induction m as [|i x m Hnone IH] using map_ind; intros Hsum.
  - by rewrite !map_filter_empty, !map_size_empty.
  - rewrite !size_filter_insert by done.
    pose proof (Hsum i x (lookup_insert_eq _ _ _)) as Hix.
    assert (Hm : (size (filter P m) + size (filter Q m) = size (filter R m))%nat).
    { apply IH. intros j y Hj. apply Hsum.
      rewrite lookup_insert_ne; [done|]. intros ->. congruence. }
    lia.
Qed.

Lemma size_filter_le {A} (P R : string * A → Prop) `{!∀ x, Decision (P x)}
    `{!∀ x, Decision (R x)} (m : gmap string A) :
  (∀ i x, m !! i = Some x → P (i, x) → R (i, x)) →
  (size (filter P m) ≤ size (filter R m))%nat.
Proof.
  induction m as [|i x m Hnone IH] using map_ind; intros Himp.
  - by rewrite !map_filter_empty, !map_size_empty.
  - rewrite !size_filter_insert by done.
    pose proof (Himp i x (lookup_insert_eq _ _ _)) as Hix.
    assert (Hm : (size (filter P m) ≤ size (filter R m))%nat).
    { apply IH. intros j y Hj. apply Himp.
      rewrite lookup_insert_ne; [done|]. intros ->. congruence. }
    repeat case_decide; try lia. tauto.
Qed.

Lemma size_filter_key {A} (m : gmap string A) i x :
  m !! i = Some x → size (filter (λ kv, kv.1 = i) m) = 1%nat.
Proof.
  intros Hi.
  assert (Hf : filter (λ kv : string * A, kv.1 = i) m = {[i := x]}).
  { apply map_eq. intros j. destruct (decide (j = i)) as [->|Hne].
    - rewrite lookup_singleton_eq. by apply map_lookup_filter_Some_2.
    - rewrite lookup_singleton_ne by done.
      apply map_lookup_filter_None_2. right. intros y _. simpl. done. }
  rewrite Hf. apply map_size_singleton.
Qed.

Lemma feq_refl v : notna v = true → feq v v = true.
Proof.
  destruct v as [|s|q]; [done| |]; intros _; simpl; by apply bool_decide_eq_true.
Qed.

Lemma flt_feq_excl u v : flt u v = true → feq u v = false.
Proof.
  destruct u as [|s|a], v as [|s'|b]; simpl; try done.
  - destruct s, s'; done.
  - intros Hlt%bool_decide_eq_true. apply bool_decide_eq_false.
    intros ->. by apply Qclt_not_eq in Hlt.
Qed.

(** The number a rank is made of lies between 2 and twice the number of
    ranked values. *)
Lemma rank_numerator_bounds (s : gmap string float) ticker v :
  s !! ticker = Some v → notna v = true →
  let less := count_if (λ u, flt u v) s in
  let equal := count_if (λ u, feq u v) s in
  let valid := count_if notna s in
  (1 ≤ equal)%nat ∧ (less + equal ≤ valid)%nat.
Proof.
  intros Hs Hv less equal valid. split.
  - unfold equal, count_if.
    assert (Hne : size (filter (λ kv : string * float, Is_true (feq kv.2 v)) s) ≠ O).
    { apply map_size_ne_0_lookup. exists ticker, v.
      apply map_lookup_filter_Some_2; [done|]. simpl.
      apply Is_true_true. by apply feq_refl. }
    lia.
  - unfold less, equal, valid, count_if.
    rewrite (size_filter_sum _ _
               (λ kv : string * float, Is_true (flt kv.2 v) ∨ Is_true (feq kv.2 v))).
    + apply size_filter_le. intros i x _ [H|H]; simpl in *; apply Is_true_true.
      * apply Is_true_true in H. by eapply flt_notna.
      * apply Is_true_true in H. by eapply feq_notna.
    + intros i x _. simpl.
      destruct (flt x v) eqn:Hlt.
      * rewrite (flt_feq_excl _ _ Hlt). simpl.
        repeat case_decide; try done; tauto.
      * destruct (feq x v); simpl; repeat case_decide; try done; tauto.
Qed.

(** Comparing a quotient of two counts with a fraction. *)
Lemma Qc_of_nat_div_le (a b : nat) (n : Z) (d : positive) :
  (0 < b)%nat →
  ((Qc_of_nat a / Qc_of_nat b ≤ Q2Qc (n # d))%Qc
     ↔ Z.of_nat a * Z.pos d ≤ n * Z.of_nat b)
  ∧ ((Q2Qc (n # d) ≤ Qc_of_nat a / Qc_of_nat b)%Qc
     ↔ n * Z.of_nat b ≤ Z.of_nat a * Z.pos d).
Proof.
  intros Hb. destruct b as [|b]; [lia|].
  unfold Qcle, Qc_of_nat, Z2Qc, Qcdiv, Qcmult, Qcinv. simpl this.
  rewrite !Qred_correct.
  assert (Hpos : Z.of_nat (S b) = Z.pos (Pos.of_succ_nat b)) by done.
  rewrite Hpos. unfold Qinv, Qmult, Qle, inject_Z. simpl. split; lia.
Qed.

Lemma signal_of_rank_values rank :
  signal_of_rank rank = long_weight ∨ signal_of_rank rank = short_weight
  ∨ signal_of_rank rank = 0%Qc.
Proof.
  unfold signal_of_rank. destruct (fge rank top_threshold); [by left|].
  destruct (fle rank bottom_threshold); [right; by left|right; by right].
Qed.

(** X18: the signals have an entry exactly for the listed tickers that are
    columns of the price table, and every weight is 1/20, -1/20 or 0; without
    a table, or with an empty one, there is no signal at all. *)
Theorem calculate_signals_entries (listed : list string) (prices : option DataFrame) :
  (∀ ticker weight,
     calculate_signals listed prices !! ticker = Some weight →
     weight = long_weight ∨ weight = short_weight ∨ weight = 0%Qc)
  ∧ (∀ df, prices = Some df → frame_empty df = false →
       ∀ ticker, is_Some (calculate_signals listed prices !! ticker)
                 ↔ ticker ∈ listed ∧ is_Some (data df !! ticker))
  ∧ ((prices = None ∨ ∃ df, prices = Some df ∧ frame_empty df = true) →
       calculate_signals listed prices = ∅).
Proof.
  split; [|split].
  - intros ticker weight. destruct prices as [df|]; [|done].
    destruct (frame_empty df) eqn:He.
    + unfold calculate_signals. by rewrite He.
    + rewrite calculate_signals_lookup by done.
      destruct (data df !! ticker); [|done].
      case_decide; [|done]. intros [= <-]. apply signal_of_rank_values.
  - intros df -> He ticker. rewrite calculate_signals_lookup by done.
    destruct (data df !! ticker) as [col|].
    + case_decide as Hin.
      * split; [intros _; split; [done|eauto]|intros _; eauto].
      * split; [by intros [? ?]|by intros [? _]].
    + split; [by intros [? ?]|by intros [_ [? ?]]].
  - intros [->|(df & -> & He)]; [done|].
    unfold calculate_signals. by rewrite He.
Qed.

Lemma calculate_signals_entries_witness :
  is_Some (calculate_signals tickers_D (Some frame_D) !! "E").
Proof.
  destruct (calculate_signals_entries tickers_D (Some frame_D)) as (_ & Hdom & _).
  apply (Hdom frame_D eq_refl).
  - vm_compute. reflexivity.
  - split.
    + apply list_elem_of_In. vm_compute. tauto.
    + vm_compute. eauto.
Defined.

Lemma pct_rank_of_ranked (s : gmap string float) v :
  notna v = true →
  pct_rank_of s v
  = Fin (Qc_of_nat (2 * count_if (λ u, flt u v) s + count_if (λ u, feq u v) s + 1)
         / Qc_of_nat (2 * count_if notna s))%Qc.
Proof. intros Hv. unfold pct_rank_of. by destruct v. Qed.

Lemma short_weight_not_long : short_weight ≠ long_weight.
Proof. intros E. discriminate E. Qed.

Lemma short_weight_not_zero : short_weight ≠ 0%Qc.
Proof. intros E. discriminate E. Qed.

(** X19: a short signal needs at least five ranked instruments: with fewer
    than five momentum values no ticker ever gets the weight -1/20. *)
Theorem short_needs_five_ranked (listed : list string) (df : DataFrame)
    (ticker : string) :
  frame_empty df = false →
  calculate_signals listed (Some df) !! ticker = Some short_weight →
  (5 ≤ count_if notna (momentum_score df))%nat.
Proof.
  intros He. rewrite calculate_signals_lookup by done.
  destruct (data df !! ticker) as [col|] eqn:Hcol; [|done].
  case_decide; [|done]. intros [= Hsig].
  set (s := momentum_score df) in *.
  set (v := iloc_last (momentum_3m col)) in *.
  assert (Hs : s !! ticker = Some v).
  { unfold s, momentum_score. by rewrite lookup_fmap, Hcol. }
  destruct (notna v) eqn:Hv.
  - destruct (rank_numerator_bounds s ticker v Hs Hv) as [Heq Hsum].
    rewrite pct_rank_of_ranked in Hsig by done.
    assert (Hvalid : (0 < 2 * count_if notna s)%nat) by lia.
    unfold signal_of_rank in Hsig.
    destruct (fge _ top_threshold);
      [by symmetry in Hsig; apply short_weight_not_long in Hsig|].
    destruct (fle _ bottom_threshold) eqn:Hle;
      [|by symmetry in Hsig; apply short_weight_not_zero in Hsig].
    simpl in Hle. apply bool_decide_eq_true in Hle.
    apply (proj1 (Qc_of_nat_div_le _ _ 2 10 Hvalid)) in Hle. lia.
  - assert (Hnan : v = NaN) by (by destruct v).
    rewrite Hnan in Hsig. simpl in Hsig.
    by symmetry in Hsig; apply short_weight_not_zero in Hsig.
Qed.

(** X20: a listed instrument whose momentum is above that of every other
    ranked instrument gets the weight 1/20; in particular the only ranked
    instrument of a table always does. *)
Theorem top_momentum_goes_long (listed : list string) (df : DataFrame)
    (ticker : string) (v : float) :
  frame_empty df = false →
  ticker ∈ listed →
  momentum_score df !! ticker = Some v →
  notna v = true →
  (∀ other u, other ≠ ticker → momentum_score df !! other = Some u →
     is_nan u = true ∨ flt u v = true) →
  calculate_signals listed (Some df) !! ticker = Some long_weight.
Proof.
  intros He Hin Hs Hv Htop.
  rewrite calculate_signals_lookup by done.
  unfold momentum_score in Hs. rewrite lookup_fmap in Hs.
  destruct (data df !! ticker) as [col|] eqn:Hcol; [|done].
  simpl in Hs. injection Hs as Hs. rewrite Hs, decide_True by done.
  fold (momentum_score df) in *.
  set (s := momentum_score df) in *.
  assert (Hs' : s !! ticker = Some v).
  { unfold s, momentum_score. by rewrite lookup_fmap, Hcol, <- Hs. }
  destruct (rank_numerator_bounds s ticker v Hs' Hv) as [Heq Hsum].
  assert (Hone : count_if (λ u, feq u v) s = 1%nat).
  { unfold count_if. rewrite <- (size_filter_key s ticker v Hs').
    f_equal. apply map_filter_ext. intros i x Hi. simpl.
    destruct (decide (i = ticker)) as [->|Hne].
    - rewrite Hs' in Hi. injection Hi as <-. rewrite feq_refl by done. done.
    - destruct (Htop i x Hne Hi) as [Hnan|Hlt].
      + destruct x; try done; simpl; tauto.
      + rewrite (flt_feq_excl _ _ Hlt). simpl. tauto. }
  assert (Hall : (count_if (λ u, flt u v) s + count_if (λ u, feq u v) s
                  = count_if notna s)%nat).
  { unfold count_if. apply size_filter_sum. intros i x Hi. simpl.
    destruct (decide (i = ticker)) as [->|Hne].
    - rewrite Hs' in Hi. injection Hi as <-.
      rewrite feq_refl, Hv by done.
      assert (Hirr : flt v v = false).
      { destruct (flt v v) eqn:E; [|done].
        apply flt_feq_excl in E. by rewrite feq_refl in E. }
      rewrite Hirr. simpl. repeat case_decide; try done; tauto.
    - destruct (Htop i x Hne Hi) as [Hnan|Hlt].
      + destruct x; try done; simpl; repeat case_decide; try done; tauto.
      + rewrite (flt_feq_excl _ _ Hlt), Hlt, (flt_notna _ _ Hlt). simpl.
        repeat case_decide; try done; tauto. }
  rewrite pct_rank_of_ranked by done.
  assert (Hvalid : (0 < 2 * count_if notna s)%nat) by lia.
  unfold signal_of_rank.
  assert (Hge : fge (Fin (Qc_of_nat (2 * count_if (λ u, flt u v) s
                                      + count_if (λ u, feq u v) s + 1)
                          / Qc_of_nat (2 * count_if notna s))%Qc)
                    top_threshold = true).
  { simpl. apply bool_decide_eq_true.
    apply (proj2 (Qc_of_nat_div_le _ _ 8 10 Hvalid)). lia. }
  by rewrite Hge.
Qed.

Lemma short_needs_five_ranked_witness :
  calculate_signals tickers_D (Some frame_five) !! "A" = Some short_weight
  ∧ (5 ≤ count_if notna (momentum_score frame_five))%nat.
Proof.
  assert (Hne : frame_empty frame_five = false) by (vm_compute; reflexivity).
  assert (Hshort : calculate_signals tickers_D (Some frame_five) !! "A"%string
                   = Some short_weight) by (vm_compute; reflexivity).
  split; [exact Hshort|].
  exact (short_needs_five_ranked tickers_D frame_five "A" Hne Hshort).
Defined.

Lemma top_momentum_goes_long_witness :
  calculate_signals tickers_D (Some frame_D) !! "D" = Some long_weight.
Proof.
  assert (Hne : frame_empty frame_D = false) by (vm_compute; reflexivity).
  assert (Hin : "D"%string ∈ tickers_D) by (apply list_elem_of_In; vm_compute; tauto).
  destruct (momentum_score frame_D !! "D"%string) as [v|] eqn:Hv;
    [|vm_compute in Hv; discriminate Hv].
  apply (top_momentum_goes_long tickers_D frame_D "D" v Hne Hin Hv).
  - vm_compute in Hv. injection Hv as <-. reflexivity.
  - intros other u Hother Hu.
    vm_compute in Hv. injection Hv as <-.
    unfold momentum_score in Hu. rewrite lookup_fmap in Hu.
    unfold frame_D in Hu. simpl data in Hu.
    destruct (decide (other = "A"%string)) as [->|HA];
      [vm_compute in Hu; injection Hu as <-; right; vm_compute; reflexivity|].
    destruct (decide (other = "B"%string)) as [->|HB];
      [vm_compute in Hu; injection Hu as <-; right; vm_compute; reflexivity|].
    destruct (decide (other = "C"%string)) as [->|HC];
      [vm_compute in Hu; injection Hu as <-; right; vm_compute; reflexivity|].
    destruct (decide (other = "E"%string)) as [->|HE];
      [vm_compute in Hu; injection Hu as <-; left; reflexivity|].
    rewrite !lookup_insert_ne in Hu by done.
    rewrite lookup_singleton_ne in Hu by done. discriminate Hu.
Defined.

(** ** Live quotes *)

Lemma live_fold_lookup closes listed acc ticker :
  foldl (LiveDataManager.live_step closes) acc listed !! ticker =
  match closes !! ticker ≫= LiveDataManager.last_valid with
  | Some price => if decide (ticker ∈ listed) then Some price else acc !! ticker
  | None => acc !! ticker
  end.
Proof.
  revert acc. induction listed as [|t listed IH]; intros acc.
  - destruct (closes !! ticker ≫= LiveDataManager.last_valid); [|done].
    rewrite decide_False; [done|]. apply not_elem_of_nil.
  - change (foldl (LiveDataManager.live_step closes) acc (t :: listed))
      with (foldl (LiveDataManager.live_step closes)
              (LiveDataManager.live_step closes acc t) listed).
    rewrite IH. unfold LiveDataManager.live_step.
    destruct (decide (t = ticker)) as [->|Hne].
    + destruct (closes !! ticker ≫= LiveDataManager.last_valid) as [price|];
        [|done].
      rewrite (decide_True (P := ticker ∈ ticker :: listed)) by left.
      case_decide; [done|]. by rewrite lookup_insert_eq.
    + assert (Hacc : match closes !! t ≫= LiveDataManager.last_valid with
                     | Some price => <[t := price]> acc
                     | None => acc
                     end !! ticker = acc !! ticker).
      { destruct (closes !! t ≫= LiveDataManager.last_valid); [|done].
        by rewrite lookup_insert_ne. }
      rewrite Hacc.
      destruct (closes !! ticker ≫= LiveDataManager.last_valid); [|done].
      destruct (decide (ticker ∈ listed)) as [Hin|Hout].
      * rewrite decide_True; [done|]. by right.
      * rewrite decide_False; [done|].
        intros [?|?]%elem_of_cons; [congruence|done].
Qed.

Lemma last_valid_Some col price :
  LiveDataManager.last_valid col = Some price → notna price = true ∧ price ∈ col.
Proof.
  unfold LiveDataManager.last_valid. intros Hlast.
  apply last_Some in Hlast as [l Hl].
  assert (Hin : price ∈ filter (λ x, Is_true (notna x)) col).
  { rewrite Hl. apply elem_of_app. right. left. }
  apply list_elem_of_filter in Hin as [Hn Hin]. split; [|done].
  by apply Is_true_true.
Qed.

(** X21: the quotes [get_live_prices] returns.  After a download that
    worked, a ticker has a quote exactly when it is listed and its column has
    a cell that is not missing, and the quote is the last such cell, so no
    returned quote is ever missing; the cache is replaced by what is returned,
    even when that is empty.  After a download that raised, the cache is
    returned and kept. *)
Theorem get_live_prices_result (download : option (gmap string (list float)))
    (dm : LiveDataManager.t) :
  let result := LiveDataManager.get_live_prices download dm in
  LiveDataManager.latest_prices result.1 = result.2
  ∧ LiveDataManager.tickers result.1 = LiveDataManager.tickers dm
  ∧ (download = None → result = (dm, LiveDataManager.latest_prices dm))
  ∧ (∀ closes ticker, download = Some closes →
       result.2 !! ticker =
       if decide (ticker ∈ LiveDataManager.tickers dm)
       then closes !! ticker ≫= LiveDataManager.last_valid else None)
  ∧ (∀ closes ticker price, download = Some closes →
       result.2 !! ticker = Some price →
       notna price = true ∧ ∃ col, closes !! ticker = Some col ∧ price ∈ col).
Proof.
  intros result.
  assert (Hlook : ∀ closes ticker, download = Some closes →
            result.2 !! ticker =
            if decide (ticker ∈ LiveDataManager.tickers dm)
            then closes !! ticker ≫= LiveDataManager.last_valid else None).
  { intros closes ticker ->. unfold result. simpl.
    rewrite live_fold_lookup, lookup_empty.
    destruct (closes !! ticker ≫= LiveDataManager.last_valid); by case_decide. }
  split; [by destruct download|]. split; [by destruct download|].
  split; [by intros ->|]. split; [exact Hlook|].
  intros closes ticker price Hd Hprice. rewrite (Hlook closes ticker Hd) in Hprice.
  case_decide; [|done].
  destruct (closes !! ticker) as [col|] eqn:Hcol; [|done]. simpl in Hprice.
  apply last_valid_Some in Hprice as [Hn Hin]. split; [done|]. by exists col.
Qed.

Example get_live_prices_skips :
  (LiveDataManager.get_live_prices
     (Some {["A" := [Fin (Z2Qc 10); Fin (Z2Qc 11); NaN]; "B" := [NaN; NaN]]})
     (LiveDataManager.mk ["A"; "B"; "C"]%string {["C" := Fin (Z2Qc 5)]})).2
  = {["A" := Fin (Z2Qc 11)]}.
Proof. vm_compute. reflexivity. Qed.

(** ** Snapshots *)

Lemma execute_trade_with_capital capital ticker shares price ts pm :
  execute_trade ticker shares price ts (with_capital capital pm)
  = with_capital capital (execute_trade ticker shares price ts pm).
Proof. reflexivity. Qed.


